(** * ui5-webcomponents: i18n bundle resolution and the tree-item key handling

    A shallow embedding of

    - [packages/base/src/i18nBundle.ts]  (module [I18n] below), and
    - [packages/main/src/TreeItemBase.ts] (module [TreeItem] below),

    followed by the properties of the two that the specification states.

    Conventions of the embedding.

    - A JavaScript object that is compared by reference is a location
      ([ref]) into a store; its fields live in the store.
    - Module-level variables ([I18nBundleInstances], [customGetI18nBundle])
      are fields of the [Runtime] record, threaded through a state monad.
    - [console.warn] appends to the [console] field.
    - An [async] function is run to completion: [await] is sequencing, and a
      rejected promise is the [Rejected] outcome.
    - Code that is imported from files outside the two sources
      ([formatMessage], [fetchI18nBundle], the inherited [_onkeydown],
      [isLeft]/[isRight]) is a [Variable] of the enclosing [Section]. *)

From stdpp Require Import base option strings list gmap.
From Stdlib Require Import ZArith Ascii.

Local Open Scope string_scope.
Local Open Scope list_scope.

(** ** JavaScript truthiness on strings *)

Module JS.

(** The only falsy string is the empty one. *)
Definition truthy (s : string) : bool := negb (String.eqb s "").

(** [a || b] on strings. *)
Definition or (a b : string) : string := if truthy a then a else b.

(** Truthiness of [obj[k]] where a missing property reads [undefined]. *)
Definition truthy_prop (v : option string) : bool :=
  match v with
  | Some s => truthy s
  | None => false
  end.

(** The names that a plain object inherits from [Object.prototype]. *)
Definition Object_prototype : list string :=
  [ "constructor"; "__defineGetter__"; "__defineSetter__"; "hasOwnProperty";
    "__lookupGetter__"; "__lookupSetter__"; "isPrototypeOf";
    "propertyIsEnumerable"; "toString"; "valueOf"; "__proto__";
    "toLocaleString" ].

(** What a property read on a key-to-string object gives, when it gives
    something: a string the object holds, or the member of
    [Object.prototype] of that name (a function; for [__proto__] the
    prototype itself), which is not a string. *)
Inductive MessageText :=
| Text (s : string)
| Inherited (name : string).

(** Truthiness of what a property read gave; [None] is [undefined].
    Functions and objects are truthy. *)
Definition truthy_value (v : option MessageText) : bool :=
  match v with
  | Some (Text s) => truthy s
  | Some (Inherited _) => true
  | None => false
  end.

End JS.

(** ** packages/base/src/i18nBundle.ts *)

Module I18n.

(** Identity of an object: two references are the same object iff they are
    equal. *)
Definition ref := nat.

(** [class I18nBundle { packageName: string }] *)
Record I18nBundle := mkI18nBundle { packageName : string }.

(** [type I18nText = { key: string, defaultText: string }] *)
Record I18nText := mkI18nText { key : string; defaultText : string }.

(** What [getText] can receive as its first argument at run time: nothing
    ([undefined]/[null]), a bare string, or a key/defaultText pair. *)
Inductive TextArg :=
| Absent
| Bare (s : string)
| Pair (t : I18nText).

(** Locale data of one package: translation key to translated string. *)
Abbreviation I18nData := (gmap string string).

(** How a promise settles. *)
Inductive Settled (A : Type) :=
| Fulfilled (a : A)
| Rejected (reason : string).
Arguments Fulfilled {A} a.
Arguments Rejected {A} reason.

(** The state that code outside the module can reach: the objects
    allocated so far (an [I18nBundle] is exported, so anyone can construct
    one and [packageName] is a public field), the locale data held by the
    asset registry (what [getI18nBundleData] reads), and the console. *)
Record Outside := mkOutside {
  heap : list I18nBundle;
  bundleData : gmap string I18nData;
  console : list string;
}.

(** [type I18nBundleGetter = (packageName: string) => Promise<I18nBundle>]
    is foreign code: it sees the outside state only; the two module-level
    variables are not exported. *)
Definition I18nBundleGetter := string → Outside → Settled ref * Outside.

(** Which acquisition code ran, in order. *)
Inductive Call :=
| CallFetch (p : string)      (* fetchI18nBundle(p), line 83 *)
| CallSync (p : string)       (* getI18nBundleSync(p), lines 61-69 *)
| CallCustom (p : string).    (* customGetI18nBundle(p), line 80 *)

#[export] Instance Call_eq_dec : EqDecision Call.
Proof. solve_decision. Defined.

Record Runtime := mkRuntime {
  outside : Outside;
  I18nBundleInstances : gmap string ref;            (* line 4 *)
  customGetI18nBundle : option I18nBundleGetter;    (* line 6 *)
  calls : list Call;
}.

(** The module as loaded: an empty Map (line 4), no getter (line 6), and
    nothing called yet. *)
Definition loaded_module (o : Outside) : Runtime := mkRuntime o ∅ None [].

Definition set_outside (o : Outside) (w : Runtime) : Runtime :=
  mkRuntime o (I18nBundleInstances w) (customGetI18nBundle w) (calls w).
Definition set_instances (m : gmap string ref) (w : Runtime) : Runtime :=
  mkRuntime (outside w) m (customGetI18nBundle w) (calls w).
Definition set_getter (g : option I18nBundleGetter) (w : Runtime) : Runtime :=
  mkRuntime (outside w) (I18nBundleInstances w) g (calls w).
Definition set_calls (c : list Call) (w : Runtime) : Runtime :=
  mkRuntime (outside w) (I18nBundleInstances w) (customGetI18nBundle w) c.

(** *** The state monad of the module *)

Definition M (A : Type) : Type := Runtime → A * Runtime.

#[export] Instance M_ret : MRet M := λ A a w, (a, w).
#[export] Instance M_bind : MBind M :=
  λ A B f m w, let '(a, w') := m w in f a w'.

Definition gets {A} (f : Runtime → A) : M A := λ w, (f w, w).
Definition modify (f : Runtime → Runtime) : M unit := λ w, (tt, f w).

(** Run foreign code on the outside state. *)
Definition foreign {A} (f : Outside → A * Outside) : M A :=
  λ w, let '(a, o) := f (outside w) in (a, set_outside o w).

Definition log_call (c : Call) : M unit :=
  modify (λ w, set_calls (calls w ++ [c]) w).

(** [console.warn(msg)] *)
Definition console_warn (msg : string) : M unit :=
  foreign (λ o, (tt, mkOutside (heap o) (bundleData o) (console o ++ [msg]))).

(** [getI18nBundleData(packageName)]: the loaded data, or [undefined]. *)
Definition getI18nBundleData (p : string) : M (option I18nData) :=
  gets (λ w, bundleData (outside w) !! p).

(** [new I18nBundle(packageName)]: a fresh object. *)
Definition new_I18nBundle (p : string) : M ref :=
  foreign (λ o,
    (length (heap o),
     mkOutside (heap o ++ [mkI18nBundle p]) (bundleData o) (console o))).

(** [bundle[k]] on the data of a package, a plain object: the entry the
    object holds under [k]; failing that, the member of
    [Object.prototype] of that name; failing that, [undefined]. *)
Definition property (b : I18nData) (k : string) : option JS.MessageText :=
  match b !! k with
  | Some s => Some (JS.Text s)
  | None =>
      if bool_decide (k ∈ JS.Object_prototype) then Some (JS.Inherited k)
      else None
  end.

(** The text of the diagnostic of line 46. *)
Definition missing_key_warning (k : string) : string :=
  "Key " +:+ k +:+ " not found in the i18n bundle, the default text will be used".

Section WithCollaborators.

(** [number | string] *)
Context {Param : Type}.

(** [formatMessage] of [./util/formatMessage.js].  Its first argument is
    declared a string; at run time it is whatever [getText] hands over,
    which line 48 lets be an inherited member.  What the formatter does
    with its argument, failing included, is its own affair. *)
Variable formatMessage : JS.MessageText → list Param → string.

(** [fetchI18nBundle] of [./asset-registries/i18n.js]. *)
Variable fetchI18nBundle : string → Outside → Settled unit * Outside.

(** Lines 35-37. *)
Definition normalize (textObj : TextArg) : TextArg :=
  match textObj with
  | Bare s => Pair (mkI18nText s s)
  | other => other
  end.

(** Lines 34-51.  [bundle[textObj.key]] is read three times by the
    source; the reads have no effect, so one [property] stands for
    them. *)
Definition getText (this : I18nBundle) (textObj : TextArg)
    (params : list Param) : M string :=
  match normalize textObj with
  | Absent => mret ""                                   (* !textObj *)
  | Bare _ => mret ""                  (* a string has no [key]: !undefined *)
  | Pair t =>
      if negb (JS.truthy (key t)) then mret ""          (* !textObj.key *)
      else
        bundle ← getI18nBundleData (packageName this);
        match bundle with                 (* bundle && !bundle[textObj.key] *)
        | Some b =>
            if negb (JS.truthy_value (property b (key t)))
            then console_warn (missing_key_warning (key t))
            else mret tt
        | None => mret tt
        end;;
        let messageText :=
          match bundle with      (* bundle && bundle[textObj.key] ? ... : ... *)
          | Some b =>
              if JS.truthy_value (property b (key t))
              then default (JS.Text "") (property b (key t))
              else JS.Text (JS.or (defaultText t) (key t))
          | None => JS.Text (JS.or (defaultText t) (key t))
          end in
        mret (formatMessage messageText params)
  end.

(** Lines 61-69. *)
Definition getI18nBundleSync (p : string) : M ref :=
  log_call (CallSync p);;
  instances ← gets I18nBundleInstances;
  match instances !! p with
  | Some b => mret b
  | None =>
      i18nBundle ← new_I18nBundle p;
      modify (λ w, set_instances (<[p := i18nBundle]> (I18nBundleInstances w)) w);;
      mret i18nBundle
  end.

(** Lines 78-85. *)
Definition getI18nBundle (p : string) : M (Settled ref) :=
  getter ← gets customGetI18nBundle;
  match getter with
  | Some customGet =>
      log_call (CallCustom p);;
      foreign (customGet p)
  | None =>
      log_call (CallFetch p);;
      fetched ← foreign (fetchI18nBundle p);
      match fetched with
      | Rejected reason => mret (Rejected reason)
      | Fulfilled _ =>
          b ← getI18nBundleSync p;
          mret (Fulfilled b)
      end
  end.

(** Lines 95-97. *)
Definition registerCustomI18nBundleGetter (customGet : I18nBundleGetter)
    : M unit :=
  modify (set_getter (Some customGet)).

(** *** Programs over the module

    What a client, or the module itself, can do in one step.  All but
    [DoGetI18nBundleSync] are reachable from outside: the export list
    (lines 99-105) has [I18nBundle], [getI18nBundle] and
    [registerCustomI18nBundleGetter]. *)
Inductive Op :=
| DoGetI18nBundle (p : string)
| DoGetI18nBundleSync (p : string)
| DoRegister (customGet : I18nBundleGetter)
| DoGetText (this : ref) (textObj : TextArg) (params : list Param)
| DoForeign (f : Outside → Outside).

Definition exported (op : Op) : bool :=
  match op with
  | DoGetI18nBundleSync _ => false
  | _ => true
  end.

Definition run_op (op : Op) : M unit :=
  match op with
  | DoGetI18nBundle p => getI18nBundle p;; mret tt
  | DoGetI18nBundleSync p => getI18nBundleSync p;; mret tt
  | DoRegister g => registerCustomI18nBundleGetter g
  | DoGetText this textObj params =>
      o ← gets outside;
      match heap o !! this with
      | Some b => getText b textObj params;; mret tt
      | None => mret tt
      end
  | DoForeign f => foreign (λ o, (tt, f o))
  end.

Fixpoint run (ops : list Op) (w : Runtime) : Runtime :=
  match ops with
  | [] => w
  | op :: rest => run rest (snd (run_op op w))
  end.

End WithCollaborators.

End I18n.

(** ** packages/main/src/TreeItemBase.ts *)

Module TreeItem.

(** Identity of a tree item element. *)
Definition ref := nat.

(** The part of a [MouseEvent | KeyboardEvent] that the handlers use. *)
Record DomEvent := mkDomEvent {
  ev_key : string;
  propagationStopped : bool;
}.

(** [e.stopPropagation()] *)
Definition stopPropagation (e : DomEvent) : DomEvent :=
  mkDomEvent (ev_key e) true.

(** [fireEvent(name, { item })]: what was dispatched.  Listeners are the
    surrounding container's business and are not run here. *)
Record Fired := mkFired {
  name : string;
  item : ref;
}.

#[export] Instance Fired_eq_dec : EqDecision Fired.
Proof. solve_decision. Defined.

(** How many events of a given name a log holds. *)
Definition count_fired (n : string) (log : list Fired) : nat :=
  length (filter (λ f, name f = n) log).

Module Keys.
(** Modelled from the spec: [isLeft] and [isRight] of [Keys.js] are not
    among the sources; the spec calls them the left-arrow and the
    right-arrow key.  Used for the concrete runs only: the handlers
    below take the two predicates as parameters. *)
Definition isLeft (e : DomEvent) : bool := String.eqb (ev_key e) "ArrowLeft".

(** Modelled from the spec: [isRight] of [Keys.js], as [isLeft] above. *)
Definition isRight (e : DomEvent) : bool := String.eqb (ev_key e) "ArrowRight".
End Keys.

Section WithListItem.

(** State of the [ListItem] base class that this file does not name. *)
Context {Rest : Type}.

(** The inherited members the source reads or writes. *)
Record ListItem := mkListItem {
  actionable : bool;
  selected : bool;
  _id : string;
  rest : Rest;
}.

(** The properties declared in lines 104-276, in source order. *)
Record TreeItemBase := mkTreeItemBase {
  super : ListItem;
  level : Z;
  icon : string;
  showToggleButton : bool;
  expanded : bool;
  indeterminate : bool;
  hasChildren : bool;
  additionalTextState : string;
  accessibleName : string;
  _toggleButtonEnd : bool;
  _minimal : bool;
  _setsize : Z;
  _posinset : Z;
  accessibleRoleDescription : option string;
  _fixed : bool;
  ariaHaspopup : option string;
  items : list ref;
}.

Definition set_super (b : ListItem) (t : TreeItemBase) : TreeItemBase :=
  mkTreeItemBase b (level t) (icon t) (showToggleButton t) (expanded t)
    (indeterminate t) (hasChildren t) (additionalTextState t)
    (accessibleName t) (_toggleButtonEnd t) (_minimal t) (_setsize t)
    (_posinset t) (accessibleRoleDescription t) (_fixed t) (ariaHaspopup t)
    (items t).

Definition set_showToggleButton (v : bool) (t : TreeItemBase) : TreeItemBase :=
  mkTreeItemBase (super t) (level t) (icon t) v (expanded t)
    (indeterminate t) (hasChildren t) (additionalTextState t)
    (accessibleName t) (_toggleButtonEnd t) (_minimal t) (_setsize t)
    (_posinset t) (accessibleRoleDescription t) (_fixed t) (ariaHaspopup t)
    (items t).

Definition set_expanded (v : bool) (t : TreeItemBase) : TreeItemBase :=
  mkTreeItemBase (super t) (level t) (icon t) (showToggleButton t) v
    (indeterminate t) (hasChildren t) (additionalTextState t)
    (accessibleName t) (_toggleButtonEnd t) (_minimal t) (_setsize t)
    (_posinset t) (accessibleRoleDescription t) (_fixed t) (ariaHaspopup t)
    (items t).

Definition set_actionable (v : bool) (b : ListItem) : ListItem :=
  mkListItem v (selected b) (_id b) (rest b).

(** *** Derived properties (lines 297-319) *)

Definition requiresToggleButton (t : TreeItemBase) : bool :=
  if negb (_fixed t) then hasChildren t || bool_decide (0 < length (items t))
  else false.

Definition effectiveLevel (t : TreeItemBase) : Z := (level t - 1)%Z.

Definition hasParent (t : TreeItemBase) : bool := (1 <? level t)%Z.

Definition _toggleIconName (t : TreeItemBase) : string :=
  if expanded t then "navigation-down-arrow" else "navigation-right-arrow".

Definition _showToggleButtonBeginning (t : TreeItemBase) : bool :=
  showToggleButton t && negb (_minimal t) && negb (_toggleButtonEnd t).

Definition _showToggleButtonEnd (t : TreeItemBase) : bool :=
  showToggleButton t && negb (_minimal t) && _toggleButtonEnd t.

(** *** Methods

    A method runs on the properties of [this] and dispatches events. *)
Definition Method (A : Type) : Type :=
  TreeItemBase → A * TreeItemBase * list Fired.

#[export] Instance Method_ret : MRet Method := λ A a t, (a, t, []).
#[export] Instance Method_bind : MBind Method :=
  λ A B f m t,
    let '(a, t1, log1) := m t in
    let '(b, t2, log2) := f a t1 in
    (b, t2, log1 ++ log2).

Definition read {A} (f : TreeItemBase → A) : Method A := λ t, (f t, t, []).
Definition assign (f : TreeItemBase → TreeItemBase) : Method unit :=
  λ t, (tt, f t, []).
Definition fireEvent (n : string) (this : ref) : Method unit :=
  λ t, (tt, t, [mkFired n this]).

(** [isLeft], [isRight] of [Keys.js]. *)
Variable isLeft isRight : DomEvent → bool.

(** [ListItem.prototype._onkeydown]: code of the base class, which runs
    on the base class's state and may dispatch events of its own. *)
Variable ListItem_onkeydown : DomEvent → ListItem → ListItem * list Fired.

Definition super_onkeydown (e : DomEvent) : Method unit :=
  λ t, let '(b, log) := ListItem_onkeydown e (super t) in
       (tt, set_super b t, log).

(** Lines 278-281. *)
Definition onBeforeRendering : Method unit :=
  assign (λ t, set_super (set_actionable false (super t)) t);;
  v ← read requiresToggleButton;
  assign (set_showToggleButton v).

(** Lines 364-366. *)
Definition toggle : Method unit :=
  v ← read expanded;
  assign (set_expanded (negb v)).

(** Lines 368-371.  The event object is mutated in place by the source;
    here the mutated event is the result. *)
Definition _toggleClick (this : ref) (e : DomEvent) : Method DomEvent :=
  let e := stopPropagation e in
  fireEvent "toggle" this;;
  mret e.

(** Lines 376-390: what [_onkeydown] does after the inherited handler
    has returned. *)
Definition tree_keys (this : ref) (e : DomEvent) : Method unit :=
  fixed ← read _fixed;
  toggleable ← read showToggleButton;
  ((if negb fixed && toggleable && isRight e then
      isExpanded ← read expanded;
      if negb isExpanded then fireEvent "toggle" this
      else fireEvent "step-in" this
    else mret tt) : Method unit);;
  fixed ← read _fixed;
  if negb fixed && isLeft e then
    isExpanded ← read expanded;
    if (isExpanded : bool) then fireEvent "toggle" this
    else
      parent ← read hasParent;
      if (parent : bool) then fireEvent "step-out" this
      else mret tt
  else mret tt.

(** Lines 373-391. *)
Definition _onkeydown (this : ref) (e : DomEvent) : Method unit :=
  super_onkeydown e;;
  tree_keys this e.

End WithListItem.

Arguments ListItem : clear implicits.
Arguments TreeItemBase : clear implicits.
Arguments Method : clear implicits.

End TreeItem.

(** ** Concrete collaborators and data for the runs *)

Module Sample.
Import I18n.

(** The value of a decimal digit. *)
Definition digit (c : ascii) : option nat :=
  let n := nat_of_ascii c in
  if bool_decide (48 ≤ n ∧ n ≤ 57)%nat then Some (n - 48)%nat else None.

(** Modelled from the spec: [formatMessage] is not among the sources; the
    spec has it substitute positional placeholders, [{0}] for the first
    parameter.  This stand-in handles one-digit placeholders, and is used
    for the concrete runs only: [getText] takes the formatter as a
    parameter. *)
Fixpoint formatText (text : string) (params : list string) : string :=
  match text with
  | String "{" (String d (String "}" rest as tail)) =>
      match digit d ≫= (λ i, params !! i) with
      | Some v => v +:+ formatText rest params
      | None => String "{" (String d (formatText tail params))
      end
  | String c rest => String c (formatText rest params)
  | EmptyString => EmptyString
  end.

(** Modelled from the spec: the stand-in on whatever [getText] hands
    over.  The spec speaks of strings only.  An inherited member is not
    one, and there is nothing in it to format: the stand-in returns the
    empty string there, which says nothing about the formatter of the
    repository. *)
Definition formatMessage (text : JS.MessageText) (params : list string)
    : string :=
  match text with
  | JS.Text s => formatText s params
  | JS.Inherited _ => ""
  end.

Definition greetings : I18nData := {[ "GREETING" := "Hallo {0}" ]}.

(** A loader that knows one package. *)
Definition fetchI18nBundle (p : string) (o : Outside) : Settled unit * Outside :=
  if String.eqb p "pkg-a"
  then (Fulfilled tt,
        mkOutside (heap o) (<[p := greetings]> (bundleData o)) (console o))
  else (Rejected "no loader", o).

(** A custom getter that hands out a new bundle on every request. *)
Definition freshGetter : I18nBundleGetter :=
  λ p o, (Fulfilled (length (heap o)),
          mkOutside (heap o ++ [mkI18nBundle p]) (bundleData o) (console o)).

(** A custom getter that always fails. *)
Definition failingGetter : I18nBundleGetter :=
  λ p o, (Rejected "unsupported", o).

(** Nothing loaded, nothing registered. *)
Definition initial : Runtime :=
  mkRuntime (mkOutside [] ∅ []) ∅ None [].

(** [pkg-a] loaded with [greetings]. *)
Definition loaded : Runtime :=
  mkRuntime (mkOutside [] {[ "pkg-a" := greetings ]} []) ∅ None [].

(** [pkg-a] loaded, with an empty translation for [EMPTY]. *)
Definition loaded_blank : Runtime :=
  mkRuntime (mkOutside [] {[ "pkg-a" := <[ "EMPTY" := "" ]> greetings ]} [])
    ∅ None [].

Definition pkg_a : I18nBundle := mkI18nBundle "pkg-a".

(** A program that asks for another package both ways, registers a
    getter and asks for [pkg-a] through it. *)
Definition busy : list (@Op string) :=
  [ DoGetI18nBundle "pkg-b"; DoGetI18nBundleSync "pkg-b";
    DoRegister freshGetter; DoGetI18nBundle "pkg-a";
    DoGetText 0 (Bare "GREETING") ["World"] ].

(** What ran before: another package was asked for, both ways. *)
Definition earlier : list (@Op string) :=
  [ DoGetI18nBundleSync "pkg-b"; DoGetI18nBundle "pkg-c" ].

(** A program over the exported operations only. *)
Definition client : list (@Op string) :=
  [ DoGetI18nBundle "pkg-a"; DoRegister failingGetter;
    DoGetText 0 (Bare "GREETING") ["World"]; DoGetI18nBundle "pkg-b" ].

(** *** Tree items *)

Import TreeItem.

(** A stand-in for the inherited handler: Enter presses the item. *)
Definition ListItem_onkeydown (e : DomEvent) (b : ListItem unit)
    : ListItem unit * list Fired :=
  if String.eqb (ev_key e) "Enter" then (b, [mkFired "_press" 0]) else (b, []).

Definition arrowRight : DomEvent := mkDomEvent "ArrowRight" false.
Definition arrowLeft : DomEvent := mkDomEvent "ArrowLeft" false.

(** A second-level node with two children; the flags are the
    arguments. *)
Definition node (showToggle isExpanded fixed : bool) : TreeItemBase unit :=
  mkTreeItemBase (mkListItem true false "__ui5-7" tt)
    2 "" showToggle isExpanded false false "None" "" false false 1 1 None
    fixed None [8; 9].

(** A collapsed top-level node. *)
Definition root : TreeItemBase unit :=
  mkTreeItemBase (mkListItem true false "__ui5-1" tt)
    1 "" true false false true "None" "" false false 1 1 None
    false None [].

End Sample.

(** ** What the specification says, in its own words *)

Module Spec.
Import I18n.

(** "A bare string key is treated as [{key: s, defaultText: s}]"; a
    request with no key, or a falsy one, is no request. *)
Definition requested_spec (textObj : TextArg) : option I18nText :=
  match textObj with
  | Absent => None
  | Bare s => if JS.truthy s then Some (mkI18nText s s) else None
  | Pair t => if JS.truthy (key t) then Some t else None
  end.

(** "Look up key in the cached locale data for packageName; if present,
    use the translated string": the string the data has under the key. *)
Definition translated_spec (data : option I18nData) (k : string)
    : option string :=
  b ← data; b !! k.

(** "The translated string when present, else defaultText, else key
    itself"; "falling back to key itself if defaultText is also
    empty". *)
Definition resolved_spec (data : option I18nData) (t : I18nText) : string :=
  match translated_spec data (key t) with
  | Some v => v
  | None => if JS.truthy (defaultText t) then defaultText t else key t
  end.

(** "Locale data for the bundle's package is loaded but lacks the key":
    the data is there and has no entry under the key. *)
Definition loaded_but_lacks (w : Runtime) (p k : string) : Prop :=
  ∃ b, bundleData (outside w) !! p = Some b ∧ b !! k = None.

(** "Emits exactly one warning-level diagnostic, with the message
    [Key <K> not found in the i18n bundle, the default text will be
    used]": the console grew by that one line. *)
Definition warned_once (k : string) (w w' : Runtime) : Prop :=
  console (outside w') =
    console (outside w)
    ++ ["Key " +:+ k +:+ " not found in the i18n bundle, the default text will be used"].

(** The claim on the resolution (C1) as it is worded, at one call. *)
Definition resolution_claim_spec {Param}
    (formatMessage : JS.MessageText → list Param → string)
    (this : I18nBundle) (textObj : TextArg) (params : list Param)
    (w : Runtime) : Prop :=
  fst (getText formatMessage this textObj params w) =
    match requested_spec textObj with
    | None => ""
    | Some t =>
        formatMessage
          (JS.Text (resolved_spec (bundleData (outside w) !! packageName this) t))
          params
    end.

(** The claim on the diagnostic (C2) as it is worded, at one call with a
    key. *)
Definition warning_claim_spec {Param}
    (formatMessage : JS.MessageText → list Param → string)
    (this : I18nBundle) (textObj : TextArg) (params : list Param)
    (w : Runtime) : Prop :=
  ∀ t, requested_spec textObj = Some t →
    warned_once (key t) w (snd (getText formatMessage this textObj params w))
    ↔ loaded_but_lacks w (packageName this) (key t).

(** The runtime with one more line on the console and nothing else
    changed. *)
Definition with_warning (msg : string) (w : Runtime) : Runtime :=
  set_outside
    (mkOutside (heap (outside w)) (bundleData (outside w))
       (console (outside w) ++ [msg])) w.

(** The getter in force after a program ran: the last one registered. *)
Fixpoint last_registered {Param} (ops : list (@Op Param))
    (g : option I18nBundleGetter) : option I18nBundleGetter :=
  match ops with
  | [] => g
  | DoRegister g' :: rest => last_registered rest (Some g')
  | _ :: rest => last_registered rest g
  end.

(** The registry has an entry for exactly the packages that
    [getI18nBundleSync] was called for. *)
Definition registry_tracks_calls (w : Runtime) : Prop :=
  ∀ q, is_Some (I18nBundleInstances w !! q) ↔ CallSync q ∈ calls w.

Definition is_custom (c : Call) : bool :=
  match c with
  | CallCustom _ => true
  | _ => false
  end.

End Spec.

(** ** What the code reads, for the statements that follow it *)

Module Reading.
Import I18n.

(** The translation the data itself has for a key: an entry under the
    key that is not the empty string. *)
Definition own_translation (data : option I18nData) (k : string)
    : option string :=
  b ← data; v ← b !! k; if JS.truthy v then Some v else None.

(** The translation when there is one, else [defaultText] when it is not
    empty, else the key. *)
Definition resolved (data : option I18nData) (t : I18nText) : string :=
  match own_translation data (key t) with
  | Some v => v
  | None => JS.or (defaultText t) (key t)
  end.

(** The data of the package is loaded and has no translation for the
    key: no entry, or the empty string. *)
Definition untranslated (w : Runtime) (p k : string) : Prop :=
  ∃ b, bundleData (outside w) !! p = Some b ∧ own_translation (Some b) k = None.

(** The read of [bundle[k]] falls through to [Object.prototype]: data is
    loaded, has no entry under [k], and [k] names an inherited member. *)
Definition reads_inherited (data : option I18nData) (k : string) : bool :=
  match data with
  | Some b => bool_decide (b !! k = None) && bool_decide (k ∈ JS.Object_prototype)
  | None => false
  end.

(** The data of the package is loaded and [bundle[k]] is falsy: the test
    of line 44. *)
Definition reads_falsy (w : Runtime) (p k : string) : Prop :=
  ∃ b, bundleData (outside w) !! p = Some b ∧
       JS.truthy_value (property b k) = false.

(** What [getText] hands to the formatter for a request with a key. *)
Definition message (data : option I18nData) (t : I18nText) : JS.MessageText :=
  match data ≫= (λ b, property b (key t)) with
  | Some v =>
      if JS.truthy_value (Some v) then v
      else JS.Text (JS.or (defaultText t) (key t))
  | None => JS.Text (JS.or (defaultText t) (key t))
  end.

End Reading.

(** ** TreeItemBase.ts: the accessibility getters (lines 321-347, 393-395) *)

Module Accessibility.
Import I18n TreeItem.

(** The keys that [accInfoSettings] (lines 326-338) sets; [inherited] is
    the object of [super._accInfo], whose entries under these keys are
    overwritten by the spread of line 346 and whose other entries stay. *)
Record AccInfo {SuperInfo : Type} := mkAccInfo {
  role : string;
  ariaExpanded : option bool;
  ariaLevel : option Z;
  posinset : Z;
  setsize : Z;
  ariaSelectedText : option string;
  listItemAriaLabel : option string;
  ariaOwns : option string;
  ariaHaspopup : option string;
  ariaChecked : bool;
  ariaSelected : bool;
  inherited : SuperInfo;
}.
Arguments AccInfo : clear implicits.

(** Truthiness of an optional string property: [undefined] and [""] are
    falsy. *)
Definition truthy_opt (v : option string) : bool := JS.truthy_prop v.

Section WithBundle.

Context {Rest SuperInfo Param : Type}.

(** [formatMessage] of [./util/formatMessage.js]. *)
Variable formatMessage : JS.MessageText → list Param → string.

(** The texts of [./generated/i18n/i18n-defaults.js]. *)
Variable TREE_ITEM_ARIA_LABEL : I18n.I18nText.
Variable TREE_ITEM_EXPAND_NODE : I18n.I18nText.
Variable TREE_ITEM_COLLAPSE_NODE : I18n.I18nText.

(** The inherited getter [ariaSelectedText] and the inherited [_accInfo]:
    code of the base class, which may consult its own texts. *)
Variable ListItem_ariaSelectedText :
  ListItem Rest → I18n.Outside → option string * I18n.Outside.
Variable ListItem_accInfo :
  ListItem Rest → I18n.Outside → SuperInfo * I18n.Outside.

(** The static [TreeItemBase.i18nBundle], as [onDefine] stored it. *)
Variable i18nBundle : I18n.I18nBundle.

(** [TreeItemBase.i18nBundle.getText(text)]: no parameters. *)
Definition getText (text : I18n.I18nText) : I18n.M string :=
  I18n.getText formatMessage i18nBundle (I18n.Pair text) [].

(** Lines 321-323. *)
Definition _ariaLabel (t : TreeItemBase Rest) : I18n.M (option string) :=
  if truthy_opt (accessibleRoleDescription t) then mret None
  else label ← getText TREE_ITEM_ARIA_LABEL; mret (Some label).

(** Lines 325-347.  The object literal is evaluated in source order: the
    inherited [ariaSelectedText], then the label, and [super._accInfo]
    last, at the [return]. *)
Definition _accInfo (t : TreeItemBase Rest) : I18n.M (AccInfo SuperInfo) :=
  selectedText ← I18n.foreign (ListItem_ariaSelectedText (super t));
  label ← (if negb (JS.truthy (accessibleName t)) then _ariaLabel t
           else mret None);
  let accInfoSettings :=
    mkAccInfo unit
      (if _minimal t then "menuitemradio" else "treeitem")
      (if showToggleButton t && negb (_minimal t) then Some (expanded t)
       else None)
      (if _minimal t then None else Some (level t))
      (_posinset t)
      (_setsize t)
      selectedText
      label
      (if expanded t then Some (_id (super t) +:+ "-subtree") else None)
      (if truthy_opt (TreeItem.ariaHaspopup t) then TreeItem.ariaHaspopup t
       else None)
      false
      false
      tt in
  let accInfoSettings :=
    if _minimal t
    then mkAccInfo unit (role accInfoSettings) (ariaExpanded accInfoSettings)
           (ariaLevel accInfoSettings) (posinset accInfoSettings)
           (setsize accInfoSettings) (ariaSelectedText accInfoSettings)
           (listItemAriaLabel accInfoSettings) (ariaOwns accInfoSettings)
           (ariaHaspopup accInfoSettings)
           (selected (super t)) (ariaSelected accInfoSettings) tt
    else mkAccInfo unit (role accInfoSettings) (ariaExpanded accInfoSettings)
           (ariaLevel accInfoSettings) (posinset accInfoSettings)
           (setsize accInfoSettings) (ariaSelectedText accInfoSettings)
           (listItemAriaLabel accInfoSettings) (ariaOwns accInfoSettings)
           (ariaHaspopup accInfoSettings)
           (ariaChecked accInfoSettings) (selected (super t)) tt in
  superInfo ← I18n.foreign (ListItem_accInfo (super t));
  mret (mkAccInfo SuperInfo (role accInfoSettings) (ariaExpanded accInfoSettings)
          (ariaLevel accInfoSettings) (posinset accInfoSettings)
          (setsize accInfoSettings) (ariaSelectedText accInfoSettings)
          (listItemAriaLabel accInfoSettings) (ariaOwns accInfoSettings)
          (ariaHaspopup accInfoSettings) (ariaChecked accInfoSettings)
          (ariaSelected accInfoSettings) superInfo).

(** Line 354-356. *)
Definition isTreeItem (t : TreeItemBase Rest) : bool := true.

(** Lines 393-395. *)
Definition iconAccessibleName (t : TreeItemBase Rest) : I18n.M string :=
  if expanded t then getText TREE_ITEM_COLLAPSE_NODE
  else getText TREE_ITEM_EXPAND_NODE.

End WithBundle.

End Accessibility.

(** ** Auxiliary notions for the further properties *)

Module Discipline.
Import I18n.

(** Run a computation [n] times in a row. *)
Fixpoint times {A} (n : nat) (m : M A) : M unit :=
  match n with
  | O => mret tt
  | S n' => m;; times n' m
  end.

(** Foreign code that leaves the bundles that exist alone: it may
    construct more, but it neither drops one nor assigns to a
    [packageName]. *)
Definition keeps_bundles (f : Outside → Outside) : Prop :=
  ∀ o, heap o `prefix_of` heap (f o).

Definition getter_keeps_bundles (g : I18nBundleGetter) : Prop :=
  ∀ p o, heap o `prefix_of` heap (snd (g p o)).

Definition fetch_keeps_bundles
    (fetch : string → Outside → Settled unit * Outside) : Prop :=
  ∀ p o, heap o `prefix_of` heap (snd (fetch p o)).

Definition op_keeps_bundles {Param} (op : @Op Param) : Prop :=
  match op with
  | DoRegister g => getter_keeps_bundles g
  | DoForeign f => keeps_bundles f
  | _ => True
  end.

(** Every registered reference is a bundle of the package it is
    registered under. *)
Definition registry_sound (w : Runtime) : Prop :=
  ∀ p b, I18nBundleInstances w !! p = Some b →
         heap (outside w) !! b = Some (mkI18nBundle p).

(** The registry is sound and the getter in the slot, if any, leaves the
    bundles alone. *)
Definition disciplined (w : Runtime) : Prop :=
  registry_sound w ∧
  ∀ g, customGetI18nBundle w = Some g → getter_keeps_bundles g.

End Discipline.

(** ** More concrete data *)

Module SampleAcc.
Import I18n TreeItem.

Definition TREE_ITEM_ARIA_LABEL : I18nText :=
  mkI18nText "TREE_ITEM_ARIA_LABEL" "Tree Item".
Definition TREE_ITEM_EXPAND_NODE : I18nText :=
  mkI18nText "TREE_ITEM_EXPAND_NODE" "Expand Node".
Definition TREE_ITEM_COLLAPSE_NODE : I18nText :=
  mkI18nText "TREE_ITEM_COLLAPSE_NODE" "Collapse Node".

(** Stand-ins for the inherited getters: no text, an empty object. *)
Definition ListItem_ariaSelectedText (b : ListItem unit) (o : Outside)
    : option string * Outside := (None, o).
Definition ListItem_accInfo (b : ListItem unit) (o : Outside)
    : unit * Outside := (tt, o).

Definition ui5 : I18nBundle := mkI18nBundle "@ui5/webcomponents".

(** The component's package loaded, with no entry for the tree texts. *)
Definition loaded_ui5 : Runtime :=
  mkRuntime (mkOutside [] {[ "@ui5/webcomponents" := Sample.greetings ]} [])
    ∅ None [].

(** A named node: [Sample.node] with an [accessibleName]. *)
Definition named (n : string) : TreeItemBase unit :=
  mkTreeItemBase (mkListItem true false "__ui5-7" tt)
    2 "" true false false false "None" n false false 1 1 None
    false None [8; 9].

End SampleAcc.

(** * Properties *)

Module JSFacts.

Lemma truthy_true s : JS.truthy s = true ↔ s ≠ "".
Proof.
  unfold JS.truthy. destruct (String.eqb_spec s ""); simpl; split; congruence.
Qed.

Lemma truthy_false s : JS.truthy s = false ↔ s = "".
Proof.
  unfold JS.truthy. destruct (String.eqb_spec s ""); simpl; split; congruence.
Qed.

End JSFacts.

Module I18nFacts.
Import I18n Spec Reading.

(** Unfold the monad of the module down to state passing. *)
Ltac run_M :=
  unfold getI18nBundleData, console_warn, new_I18nBundle, log_call,
    foreign, gets, modify, mbind, mret, M_bind, M_ret in *;
  cbn [fst snd outside I18nBundleInstances customGetI18nBundle calls
       set_outside set_instances set_getter set_calls] in *.

Lemma set_outside_id w : set_outside (outside w) w = w.
Proof. by destruct w. Qed.

Section Facts.
Context {Param : Type}.
Variable formatMessage : JS.MessageText → list Param → string.
Variable fetchI18nBundle : string → Outside → Settled unit * Outside.

Local Abbreviation getText := (getText formatMessage).
Local Abbreviation getI18nBundle := (getI18nBundle fetchI18nBundle).
Local Abbreviation run := (run formatMessage fetchI18nBundle).
Local Abbreviation run_op := (run_op formatMessage fetchI18nBundle).

(** *** getText *)

(** An empty request returns [""] and touches nothing. *)
Lemma getText_empty_request this textObj params w :
  requested_spec textObj = None →
  getText this textObj params w = ("", w).
Proof.
  destruct textObj as [|s|[k d]]; cbn; [done| |];
    unfold getText; cbn.
  - destruct (JS.truthy s); [done|]. by intros _.
  - destruct (JS.truthy k); [done|]. by intros _.
Qed.

(** A request with a key: the whole run, as one equation. *)
Lemma getText_request this textObj params w t :
  requested_spec textObj = Some t →
  let data := bundleData (outside w) !! packageName this in
  getText this textObj params w =
    (formatMessage (message data t) params,
     match data with
     | Some b =>
         if JS.truthy_value (property b (key t)) then w
         else with_warning (missing_key_warning (key t)) w
     | None => w
     end).
Proof.
  intros Hreq. cbn zeta.
  assert (Hn : normalize textObj = Pair t ∧ JS.truthy (key t) = true).
  { destruct textObj as [|s|[k d]]; cbn in *; [done| |].
    - destruct (JS.truthy s) eqn:E; [|done]. by simplify_eq.
    - destruct (JS.truthy k) eqn:E; [|done]. by simplify_eq. }
  destruct Hn as [Hn Hk]. unfold getText. rewrite Hn, Hk. cbn [negb].
  run_M. unfold message, with_warning.
  destruct (bundleData (outside w) !! packageName this) as [b|]; cbn; [|done].
  destruct (property b (key t)) as [[v|m]|] eqn:Ev; cbn; [|done..].
  by destruct (JS.truthy v).
Qed.

(** A read that does not fall through to [Object.prototype] gives the
    entry of the data, if any. *)
Lemma property_own b k :
  reads_inherited (Some b) k = false →
  property b k = JS.Text <$> b !! k.
Proof.
  unfold reads_inherited, property. destruct (b !! k) as [v|]; [done|].
  rewrite bool_decide_true by done. cbn. by intros ->.
Qed.

Lemma truthy_value_own b k :
  reads_inherited (Some b) k = false →
  JS.truthy_value (property b k)
    = bool_decide (is_Some (own_translation (Some b) k)).
Proof.
  intros H. rewrite (property_own _ _ H). unfold own_translation. cbn.
  destruct (b !! k) as [v|]; cbn; [|done]. by destruct (JS.truthy v).
Qed.

Lemma message_own data t :
  reads_inherited data (key t) = false →
  message data t = JS.Text (resolved data t).
Proof.
  unfold message, resolved. destruct data as [b|]; [|done]. intros H. cbn.
  rewrite (property_own _ _ H). unfold own_translation. cbn.
  destruct (b !! key t) as [v|]; cbn; [|done]. by destruct (JS.truthy v).
Qed.

(** A read that falls through: the inherited member goes to the
    formatter and nothing is emitted. *)
Lemma getText_inherited_key this textObj params w t :
  requested_spec textObj = Some t →
  reads_inherited (bundleData (outside w) !! packageName this) (key t) = true →
  getText this textObj params w
    = (formatMessage (JS.Inherited (key t)) params, w).
Proof.
  intros Hreq Hin. rewrite (getText_request _ _ _ _ _ Hreq). cbn zeta.
  unfold message.
  destruct (bundleData (outside w) !! packageName this) as [b|]; [|done].
  cbn in *. apply andb_true_iff in Hin as [Hnone Hproto].
  apply bool_decide_eq_true in Hnone. unfold property. rewrite Hnone, Hproto.
  done.
Qed.

Lemma untranslated_iff w p k :
  untranslated w p k ↔
  ∃ b, bundleData (outside w) !! p = Some b ∧
       own_translation (bundleData (outside w) !! p) k = None.
Proof.
  unfold untranslated. split; intros (b & Hb & Hk); exists b.
  - by rewrite Hb.
  - by rewrite Hb in Hk.
Qed.

Lemma console_grows_not msg w :
  console (outside w) ≠ console (outside w) ++ [msg].
Proof.
  intros H. apply (f_equal length) in H.
  rewrite length_app in H. cbn in H. lia.
Qed.

(** [getText] changes the console at most. *)
Lemma getText_frame this textObj params w :
  ∃ c, snd (getText this textObj params w) =
       set_outside (mkOutside (heap (outside w)) (bundleData (outside w)) c) w.
Proof.
  destruct (requested_spec textObj) as [t|] eqn:Hreq.
  - rewrite (getText_request _ _ _ _ _ Hreq). cbn.
    repeat case_match; unfold with_warning; eauto;
      exists (console (outside w)); by destruct w as [[]].
  - rewrite (getText_empty_request _ _ _ _ Hreq). cbn.
    exists (console (outside w)); by destruct w as [[]].
Qed.

(** *** The instance registry *)

Lemma getI18nBundleSync_hit p b w :
  I18nBundleInstances w !! p = Some b →
  getI18nBundleSync p w = (b, set_calls (calls w ++ [CallSync p]) w).
Proof. intros H. unfold getI18nBundleSync. run_M. by rewrite H. Qed.

Lemma getI18nBundleSync_miss p w :
  I18nBundleInstances w !! p = None →
  getI18nBundleSync p w =
    (length (heap (outside w)),
     mkRuntime
       (mkOutside (heap (outside w) ++ [mkI18nBundle p])
          (bundleData (outside w)) (console (outside w)))
       (<[p := length (heap (outside w))]> (I18nBundleInstances w))
       (customGetI18nBundle w)
       (calls w ++ [CallSync p])).
Proof. intros H. unfold getI18nBundleSync. run_M. by rewrite H. Qed.

Lemma getI18nBundleSync_mono p w :
  I18nBundleInstances w ⊆ I18nBundleInstances (snd (getI18nBundleSync p w)).
Proof.
  destruct (I18nBundleInstances w !! p) as [b|] eqn:H.
  - by rewrite (getI18nBundleSync_hit _ _ _ H).
  - rewrite (getI18nBundleSync_miss _ _ H). cbn. by apply insert_subseteq.
Qed.

Lemma getI18nBundleSync_getter p w :
  customGetI18nBundle (snd (getI18nBundleSync p w)) = customGetI18nBundle w.
Proof.
  destruct (I18nBundleInstances w !! p) as [b|] eqn:H.
  - by rewrite (getI18nBundleSync_hit _ _ _ H).
  - by rewrite (getI18nBundleSync_miss _ _ H).
Qed.

(** With a getter in the slot, [getI18nBundle] is the getter. *)
Lemma getI18nBundle_custom g p w :
  customGetI18nBundle w = Some g →
  getI18nBundle p w =
    (fst (g p (outside w)),
     mkRuntime (snd (g p (outside w))) (I18nBundleInstances w) (Some g)
       (calls w ++ [CallCustom p])).
Proof.
  intros H. unfold getI18nBundle. run_M. rewrite H. cbn.
  destruct (g p (outside w)); cbn.
  unfold set_outside, set_calls; cbn. by rewrite H.
Qed.

(** With the slot empty, [getI18nBundle] fetches, then asks the
    registry. *)
Lemma getI18nBundle_default p w :
  customGetI18nBundle w = None →
  getI18nBundle p w =
    let w1 := set_outside (snd (fetchI18nBundle p (outside w)))
                (set_calls (calls w ++ [CallFetch p]) w) in
    match fst (fetchI18nBundle p (outside w)) with
    | Rejected reason => (Rejected reason, w1)
    | Fulfilled _ =>
        (Fulfilled (fst (getI18nBundleSync p w1)), snd (getI18nBundleSync p w1))
    end.
Proof.
  intros H. unfold getI18nBundle. run_M. rewrite H. cbn.
  destruct (fetchI18nBundle p (outside w)) as [[[]|reason] o]; cbn; [|done].
  by destruct (getI18nBundleSync p _).
Qed.

Lemma run_op_mono op w :
  I18nBundleInstances w ⊆ I18nBundleInstances (snd (run_op op w)).
Proof.
  destruct op as [p|p|g|this textObj params|f]; cbn.
  - run_M. destruct (getI18nBundle p w) as [r w'] eqn:E. cbn.
    replace w' with (snd (getI18nBundle p w)) by (by rewrite E). clear E.
    destruct (customGetI18nBundle w) as [g|] eqn:Hg.
    + by rewrite (getI18nBundle_custom _ _ _ Hg).
    + rewrite (getI18nBundle_default _ _ Hg). cbn zeta.
      destruct (fst (fetchI18nBundle p (outside w))); cbn; [|done].
      etrans; [|apply getI18nBundleSync_mono]. done.
  - run_M. destruct (getI18nBundleSync p w) as [r w'] eqn:E. cbn.
    replace w' with (snd (getI18nBundleSync p w)) by (by rewrite E).
    apply getI18nBundleSync_mono.
  - done.
  - run_M. destruct (heap (outside w) !! this) as [b|]; [|done].
    destruct (getText_frame b textObj params w) as [c Hc].
    destruct (getText b textObj params w) as [r w']. cbn in *. by subst.
  - by run_M.
Qed.

(** Registry entries are never removed, whatever runs. *)
Lemma run_mono ops w :
  I18nBundleInstances w ⊆ I18nBundleInstances (run ops w).
Proof.
  revert w. induction ops as [|op ops IH]; intros w; cbn; [done|].
  etrans; [apply (run_op_mono op)|apply IH].
Qed.

Lemma getI18nBundleSync_registered p w :
  I18nBundleInstances (snd (getI18nBundleSync p w)) !! p
    = Some (fst (getI18nBundleSync p w)) ∧
  calls (snd (getI18nBundleSync p w)) = calls w ++ [CallSync p].
Proof.
  destruct (I18nBundleInstances w !! p) as [b|] eqn:H.
  - by rewrite (getI18nBundleSync_hit _ _ _ H).
  - rewrite (getI18nBundleSync_miss _ _ H). cbn. by rewrite lookup_insert_eq.
Qed.

(** *** The getter slot *)

Lemma run_op_getter op w :
  customGetI18nBundle (snd (run_op op w)) =
    last_registered [op] (customGetI18nBundle w).
Proof.
  destruct op as [p|p|g|this textObj params|f]; cbn.
  - run_M. destruct (getI18nBundle p w) as [r w'] eqn:E. cbn.
    replace w' with (snd (getI18nBundle p w)) by (by rewrite E). clear E.
    destruct (customGetI18nBundle w) as [g|] eqn:Hg.
    + by rewrite (getI18nBundle_custom _ _ _ Hg).
    + rewrite (getI18nBundle_default _ _ Hg). cbn zeta.
      destruct (fst (fetchI18nBundle p (outside w))); cbn; [|done].
      by rewrite getI18nBundleSync_getter.
  - run_M. destruct (getI18nBundleSync p w) as [r w'] eqn:E. cbn.
    replace w' with (snd (getI18nBundleSync p w)) by (by rewrite E).
    apply getI18nBundleSync_getter.
  - done.
  - run_M. destruct (heap (outside w) !! this) as [b|]; [|done].
    destruct (getText_frame b textObj params w) as [c Hc].
    destruct (getText b textObj params w) as [r w']. cbn in *. by subst.
  - by run_M.
Qed.

Lemma last_registered_cons (op : @Op Param) ops g :
  last_registered (op :: ops) g = last_registered ops (last_registered [op] g).
Proof. by destruct op. Qed.

Lemma run_getter ops w :
  customGetI18nBundle (run ops w) =
    last_registered ops (customGetI18nBundle w).
Proof.
  revert w. induction ops as [|op ops IH]; intros w; [done|].
  cbn [I18n.run]. rewrite IH, run_op_getter. symmetry.
  apply last_registered_cons.
Qed.

Lemma last_registered_is_Some ops g :
  is_Some g → is_Some (@last_registered Param ops g).
Proof.
  revert g. induction ops as [|op ops IH]; intros g Hg; [done|].
  destruct op; cbn; auto.
Qed.

(** One exported step with a getter in the slot: the registry is not
    touched, and the only acquisition code that can run is the
    getter. *)
Lemma run_op_custom op w :
  is_Some (customGetI18nBundle w) →
  exported op = true →
  I18nBundleInstances (snd (run_op op w)) = I18nBundleInstances w ∧
  ∃ cs, calls (snd (run_op op w)) = calls w ++ cs ∧
        forallb is_custom cs = true.
Proof.
  intros [g Hg] Hop.
  destruct op as [p|p|g'|this textObj params|f]; cbn in *; [|done|..].
  - run_M. destruct (getI18nBundle p w) as [r w'] eqn:E. cbn.
    replace w' with (snd (getI18nBundle p w)) by (by rewrite E). clear E.
    rewrite (getI18nBundle_custom _ _ _ Hg). cbn.
    split; [done|]. by exists [CallCustom p].
  - split; [done|]. exists []. by rewrite app_nil_r.
  - run_M. destruct (heap (outside w) !! this) as [b|].
    + destruct (getText_frame b textObj params w) as [c Hc].
      destruct (getText b textObj params w) as [r w']. cbn in *. subst.
      split; [done|]. exists []. by rewrite app_nil_r.
    + split; [done|]. exists []. by rewrite app_nil_r.
  - run_M. split; [done|]. exists []. by rewrite app_nil_r.
Qed.

Lemma run_custom ops w :
  is_Some (customGetI18nBundle w) →
  forallb exported ops = true →
  I18nBundleInstances (run ops w) = I18nBundleInstances w ∧
  ∃ cs, calls (run ops w) = calls w ++ cs ∧ forallb is_custom cs = true.
Proof.
  revert w. induction ops as [|op ops IH]; intros w Hg Hops; cbn in *.
  - split; [done|]. exists []. by rewrite app_nil_r.
  - apply andb_true_iff in Hops as [Hop Hops].
    destruct (run_op_custom op w Hg Hop) as (Hreg & cs & Hcs & Hall).
    destruct (IH (snd (run_op op w))) as (Hreg' & cs' & Hcs' & Hall');
      [|done|].
    { rewrite run_op_getter. by apply last_registered_is_Some. }
    split; [congruence|]. exists (cs ++ cs').
    rewrite Hcs', Hcs, app_assoc. split; [done|].
    rewrite forallb_app. by rewrite Hall, Hall'.
Qed.

(** *** First calls *)

Lemma getI18nBundleSync_effect p w :
  I18nBundleInstances (snd (getI18nBundleSync p w))
    = <[p := fst (getI18nBundleSync p w)]> (I18nBundleInstances w) ∧
  calls (snd (getI18nBundleSync p w)) = calls w ++ [CallSync p].
Proof.
  destruct (I18nBundleInstances w !! p) as [b|] eqn:H.
  - rewrite (getI18nBundleSync_hit _ _ _ H). cbn. by rewrite insert_id.
  - by rewrite (getI18nBundleSync_miss _ _ H).
Qed.

Lemma getI18nBundleSync_tracks p w :
  registry_tracks_calls w →
  registry_tracks_calls (snd (getI18nBundleSync p w)).
Proof.
  intros Hw q. destruct (getI18nBundleSync_effect p w) as [-> ->].
  rewrite elem_of_app, list_elem_of_singleton, <-(Hw q).
  destruct (decide (p = q)) as [->|Hne].
  - rewrite lookup_insert_eq. split; [by right|by eexists].
  - rewrite lookup_insert_ne by done. split; [by left|].
    intros [?|?]; [done|congruence].
Qed.

Lemma tracks_other_call c w w' :
  registry_tracks_calls w →
  is_custom c = true ∨ (∃ p, c = CallFetch p) →
  I18nBundleInstances w' = I18nBundleInstances w →
  calls w' = calls w ++ [c] →
  registry_tracks_calls w'.
Proof.
  intros Hw Hc Hreg Hcalls q. rewrite Hreg, Hcalls, (Hw q).
  rewrite elem_of_app, list_elem_of_singleton. split; [by left|].
  intros [?| <-]; [done|]. destruct Hc as [?|[? ?]]; simplify_eq/=.
Qed.

Lemma run_op_tracks op w :
  registry_tracks_calls w → registry_tracks_calls (snd (run_op op w)).
Proof.
  intros Hw. destruct op as [p|p|g|this textObj params|f]; cbn.
  - run_M. destruct (getI18nBundle p w) as [r w'] eqn:E. cbn.
    replace w' with (snd (getI18nBundle p w)) by (by rewrite E). clear E.
    destruct (customGetI18nBundle w) as [g|] eqn:Hg.
    + rewrite (getI18nBundle_custom _ _ _ Hg). cbn.
      by apply (tracks_other_call (CallCustom p) w); [|left|..].
    + rewrite (getI18nBundle_default _ _ Hg). cbn zeta.
      set (w1 := set_outside _ _).
      assert (registry_tracks_calls w1)
        by (apply (tracks_other_call (CallFetch p) w); [|right|..]; eauto).
      destruct (fst (fetchI18nBundle p (outside w))); cbn; [|done].
      by apply getI18nBundleSync_tracks.
  - run_M. destruct (getI18nBundleSync p w) as [r w'] eqn:E. cbn.
    replace w' with (snd (getI18nBundleSync p w)) by (by rewrite E).
    by apply getI18nBundleSync_tracks.
  - done.
  - run_M. destruct (heap (outside w) !! this) as [b|]; [|done].
    destruct (getText_frame b textObj params w) as [c Hc].
    destruct (getText b textObj params w) as [r w']. cbn in *. by subst.
  - by run_M.
Qed.

(** Whatever ran since the module was loaded, the registry lacks a
    package exactly when [getI18nBundleSync] has not been called for it. *)
Lemma run_tracks ops w :
  registry_tracks_calls w → registry_tracks_calls (run ops w).
Proof.
  revert w. induction ops as [|op ops IH]; intros w Hw; [done|].
  cbn [I18n.run]. by apply IH, run_op_tracks.
Qed.

Lemma loaded_module_tracks o : registry_tracks_calls (loaded_module o).
Proof.
  intros q. cbn. rewrite lookup_empty, elem_of_nil. split; [by intros [? ?]|done].
Qed.

Lemma first_call_finds_no_entry o ops p :
  CallSync p ∉ calls (run ops (loaded_module o)) →
  I18nBundleInstances (run ops (loaded_module o)) !! p = None.
Proof.
  intros Hfirst. apply eq_None_not_Some. intros Hsome. apply Hfirst.
  by apply (run_tracks ops _ (loaded_module_tracks o)).
Qed.

(** *** The claims on the bundle *)

(** C1, amended.  A bare string [s] is read as
    [{key: s, defaultText: s}].  A request that is absent, or whose key
    is falsy, yields [""].  Any other request, unless its read of the data
    falls through to [Object.prototype] (data loaded, no entry under the
    key, and the key names an inherited member: that case is left out),
    yields [formatMessage] applied to the resolved message and the
    parameters, the resolved message being the string that the loaded data
    of the bundle's package holds under the key when that string is not
    empty, else [defaultText] when it is not empty, else the key. *)
Theorem getText_resolution this textObj params w :
  (∀ t, requested_spec textObj = Some t →
        reads_inherited (bundleData (outside w) !! packageName this) (key t)
          = false) →
  (∀ s, getText this (Bare s) params w
        = getText this (Pair (mkI18nText s s)) params w) ∧
  fst (getText this textObj params w) =
    match requested_spec textObj with
    | None => ""
    | Some t =>
        formatMessage
          (JS.Text (resolved (bundleData (outside w) !! packageName this) t))
          params
    end.
Proof.
  intros Hown. split; [done|].
  destruct (requested_spec textObj) as [t|] eqn:Hreq.
  - rewrite (getText_request _ _ _ _ _ Hreq). cbn.
    by rewrite (message_own _ _ (Hown t eq_refl)).
  - by rewrite (getText_empty_request _ _ _ _ Hreq).
Qed.

(** C2, amended.  For a request that resolves to a key [K] (the request
    is there and [K] is not falsy), unless its read of the data falls
    through to [Object.prototype] (that case is left out): exactly one
    warning, with the text "Key K not found in the i18n bundle, the default
    text will be used", is emitted if and only if the data of the bundle's
    package is loaded and has no translation for [K], that is no entry
    under [K] or the empty string; in that case [getText] returns the
    formatted default text (or key); and the console apart, the runtime is
    left as it was.  A request with no key emits nothing and changes
    nothing. *)
Theorem getText_warning this textObj params w :
  (∀ t, requested_spec textObj = Some t →
        reads_inherited (bundleData (outside w) !! packageName this) (key t)
          = false) →
  let r := fst (getText this textObj params w) in
  let w' := snd (getText this textObj params w) in
  let p := packageName this in
  match requested_spec textObj with
  | None => r = "" ∧ w' = w
  | Some t =>
      let text :=
        "Key " +:+ key t
        +:+ " not found in the i18n bundle, the default text will be used" in
      (console (outside w') = console (outside w) ++ [text]
       ↔ untranslated w p (key t)) ∧
      (untranslated w p (key t) →
         w' = with_warning text w ∧
         r = formatMessage (JS.Text (JS.or (defaultText t) (key t))) params) ∧
      (¬ untranslated w p (key t) → w' = w)
  end.
Proof.
  intros Hown. cbn zeta.
  destruct (requested_spec textObj) as [t|] eqn:Hreq.
  - specialize (Hown t eq_refl).
    rewrite (getText_request _ _ _ _ _ Hreq). cbn [fst snd].
    rewrite (message_own _ _ Hown), untranslated_iff. unfold resolved.
    destruct (bundleData (outside w) !! packageName this) as [b|] eqn:Hb.
    + rewrite (truthy_value_own _ _ Hown).
      destruct (own_translation (Some b) (key t)) as [v|] eqn:Hv; cbn.
      * split; [|split].
        -- split; [intros H; by apply console_grows_not in H|].
           by intros (? & _ & ?).
        -- by intros (? & _ & ?).
        -- done.
      * split; [|split].
        -- split; [eauto|]. by intros _.
        -- by intros _.
        -- intros H. destruct H. eauto.
    + split; [|split].
      * split; [intros H; by apply console_grows_not in H|].
        by intros (? & ? & _).
      * by intros (? & ? & _).
      * done.
  - by rewrite (getText_empty_request _ _ _ _ Hreq).
Qed.

(** C9.  Presence is decided by the truthiness of the stored value: when
    the loaded data maps the key to the empty string, [getText] emits
    the missing-key warning and returns the formatted [defaultText] (or
    key), not the empty translation. *)
Theorem getText_blank_translation this k d params w b :
  k ≠ "" →
  bundleData (outside w) !! packageName this = Some b →
  b !! k = Some "" →
  getText this (Pair (mkI18nText k d)) params w =
    (formatMessage (JS.Text (JS.or d k)) params,
     with_warning (missing_key_warning k) w).
Proof.
  intros Hk Hb Hbk.
  assert (Hreq : requested_spec (Pair (mkI18nText k d)) = Some (mkI18nText k d)).
  { cbn. by apply JSFacts.truthy_true in Hk as ->. }
  rewrite (getText_request _ _ _ _ _ Hreq). cbn.
  unfold message, property. rewrite Hb. cbn. by rewrite Hbk.
Qed.

(** From a registry without an entry for [p]: the call constructs and
    registers; later calls find the same reference. *)
Lemma getI18nBundleSync_fresh_then_stable p w ops :
  I18nBundleInstances w !! p = None →
  let b := fst (getI18nBundleSync p w) in
  let w1 := snd (getI18nBundleSync p w) in
  let w2 := run ops w1 in
  heap (outside w) !! b = None ∧
  heap (outside w1) = heap (outside w) ++ [mkI18nBundle p] ∧
  heap (outside w1) !! b = Some (mkI18nBundle p) ∧
  I18nBundleInstances w1 = <[p := b]> (I18nBundleInstances w) ∧
  fst (getI18nBundleSync p w2) = b ∧
  outside (snd (getI18nBundleSync p w2)) = outside w2 ∧
  I18nBundleInstances (snd (getI18nBundleSync p w2)) = I18nBundleInstances w2 ∧
  I18nBundleInstances w ⊆ I18nBundleInstances w1 ∧
  I18nBundleInstances w1 ⊆ I18nBundleInstances w2.
Proof.
  intros Hp. cbn zeta. rewrite (getI18nBundleSync_miss _ _ Hp).
  cbn [fst snd outside heap I18nBundleInstances].
  set (b := length (heap (outside w))).
  set (w1 := mkRuntime _ _ _ _).
  assert (Hw2 : I18nBundleInstances (run ops w1) !! p = Some b).
  { eapply lookup_weaken; [|apply run_mono]. cbn. apply lookup_insert_eq. }
  rewrite (getI18nBundleSync_hit _ _ _ Hw2). cbn.
  split_and!; try done.
  - by apply lookup_ge_None_2.
  - rewrite lookup_app_r by done. subst b. by rewrite Nat.sub_diag.
  - by apply insert_subseteq.
  - exact (run_mono ops w1).
Qed.

(** C3.  The first call of [getI18nBundleSync p] since the module was
    loaded, whatever ran before it, constructs a new [I18nBundle] whose
    [packageName] is [p], enters it in the registry under [p] and returns
    it.  After that, whatever program runs in between,
    [getI18nBundleSync p] returns the same reference and constructs
    nothing; and no step of any program removes or replaces a registry
    entry. *)
Theorem getI18nBundleSync_identity o before p after :
  let w := run before (loaded_module o) in
  CallSync p ∉ calls w →
  let b := fst (getI18nBundleSync p w) in
  let w1 := snd (getI18nBundleSync p w) in
  let w2 := run after w1 in
  heap (outside w) !! b = None ∧
  heap (outside w1) = heap (outside w) ++ [mkI18nBundle p] ∧
  heap (outside w1) !! b = Some (mkI18nBundle p) ∧
  I18nBundleInstances w1 = <[p := b]> (I18nBundleInstances w) ∧
  fst (getI18nBundleSync p w2) = b ∧
  outside (snd (getI18nBundleSync p w2)) = outside w2 ∧
  I18nBundleInstances (snd (getI18nBundleSync p w2)) = I18nBundleInstances w2 ∧
  I18nBundleInstances w ⊆ I18nBundleInstances w1 ∧
  I18nBundleInstances w1 ⊆ I18nBundleInstances w2.
Proof.
  intros w Hfirst. apply getI18nBundleSync_fresh_then_stable.
  by apply first_call_finds_no_entry.
Qed.

(** C4.  [registerCustomI18nBundleGetter g] puts [g] in the one global
    slot, whatever was there.  From then on, through any program over
    the exported operations, the slot holds the getter registered last;
    [getI18nBundle p], for any [p], returns what that getter returns on
    [p] and runs nothing else; neither [fetchI18nBundle] nor
    [getI18nBundleSync] is ever called; and the registry stays as it
    was.  With no getter in the slot, [getI18nBundle p] calls
    [fetchI18nBundle p]; a rejection is passed on; on fulfilment the
    result is what [getI18nBundleSync p] returns, which is the
    registry's entry for [p]. *)
Theorem getI18nBundle_custom_or_default g w ops p :
  forallb exported ops = true →
  let w1 := snd (registerCustomI18nBundleGetter g w) in
  let w2 := run ops w1 in
  w1 = set_getter (Some g) w ∧
  customGetI18nBundle w2 = last_registered ops (Some g) ∧
  (∃ g', customGetI18nBundle w2 = Some g' ∧
         getI18nBundle p w2 =
           (fst (g' p (outside w2)),
            mkRuntime (snd (g' p (outside w2))) (I18nBundleInstances w2)
              (Some g') (calls w2 ++ [CallCustom p]))) ∧
  (∃ cs, calls w2 = calls w ++ cs ∧ forallb is_custom cs = true) ∧
  I18nBundleInstances w2 = I18nBundleInstances w ∧
  (∀ w0, customGetI18nBundle w0 = None →
     let fetched := fetchI18nBundle p (outside w0) in
     let w0' := set_outside (snd fetched)
                  (set_calls (calls w0 ++ [CallFetch p]) w0) in
     match fst fetched with
     | Rejected reason => getI18nBundle p w0 = (Rejected reason, w0')
     | Fulfilled _ =>
         ∃ b w0'',
           getI18nBundle p w0 = (Fulfilled b, w0'') ∧
           getI18nBundleSync p w0' = (b, w0'') ∧
           I18nBundleInstances w0'' !! p = Some b ∧
           calls w0'' = calls w0 ++ [CallFetch p; CallSync p]
     end).
Proof.
  intros Hops. cbn zeta.
  change (snd (registerCustomI18nBundleGetter g w)) with (set_getter (Some g) w).
  set (w1 := set_getter (Some g) w).
  assert (Hslot : customGetI18nBundle (run ops w1) = last_registered ops (Some g))
    by apply run_getter.
  destruct (run_custom ops w1) as (Hreg & cs & Hcs & Hall); [by eexists|done|].
  split; [done|]. split; [done|]. split; [|split; [|split]].
  - destruct (last_registered_is_Some ops (Some g)) as [g' Hg']; [by eexists|].
    exists g'. rewrite Hslot. split; [done|].
    apply getI18nBundle_custom. congruence.
  - eauto.
  - done.
  - intros w0 Hw0. cbn zeta. rewrite (getI18nBundle_default _ _ Hw0). cbn zeta.
    destruct (fst (fetchI18nBundle p (outside w0))); [|done].
    eexists _, _. split; [done|]. split; [by rewrite <-surjective_pairing|].
    destruct (getI18nBundleSync_registered p
      (set_outside (snd (fetchI18nBundle p (outside w0)))
         (set_calls (calls w0 ++ [CallFetch p]) w0))) as [H1 H2].
    split; [done|]. rewrite H2. cbn. by rewrite <-app_assoc.
Qed.

End Facts.

(** *** Runs on concrete data *)

Import Sample.

(** The scenario of the specification: a translated greeting. *)
Example getText_greeting :
  fst (getText formatMessage pkg_a
         (Pair (mkI18nText "GREETING" "Hello {0}")) ["World"] loaded)
  = "Hallo World".
Proof. reflexivity. Qed.

(** Nothing loaded: the default text, formatted, and no diagnostic. *)
Example getText_nothing_loaded :
  getText formatMessage pkg_a
    (Pair (mkI18nText "GREETING" "Hello {0}")) ["World"] initial
  = ("Hello World", initial).
Proof. reflexivity. Qed.

(** An empty request is silent, also against loaded data that has no
    entry for the empty key: line 39 returns before the lookup. *)
Example getText_empty_request_silent :
  getText formatMessage pkg_a (Bare "") ["World"] loaded = ("", loaded).
Proof. reflexivity. Qed.

(** A key that the data lacks and [Object.prototype] has: the inherited
    member is handed to the formatter, and nothing is emitted. *)
Example getText_inherited_constructor :
  getText formatMessage pkg_a (Bare "constructor") [] loaded
  = (formatMessage (JS.Inherited "constructor") [], loaded).
Proof. reflexivity. Qed.

(** C1, as worded, fails on an empty translation: the data has the key,
    the translated string is the empty one, and the code goes on to
    [defaultText]. *)
Lemma blank_translation_refutes_resolution :
  ¬ resolution_claim_spec formatMessage pkg_a
      (Pair (mkI18nText "EMPTY" "Default")) [] loaded_blank.
Proof. unfold resolution_claim_spec. vm_compute. discriminate. Qed.

(** C2, as worded, fails on an empty translation: the data does not lack
    the key, and the warning is emitted all the same. *)
Lemma blank_translation_refutes_warning :
  ¬ warning_claim_spec formatMessage pkg_a
      (Pair (mkI18nText "EMPTY" "Default")) [] loaded_blank.
Proof.
  intros H. destruct (H (mkI18nText "EMPTY" "Default") eq_refl) as [H1 _].
  destruct H1 as (b & Hb & Hk); [reflexivity|].
  change (Some (<[ "EMPTY" := "" ]> greetings) = Some b) in Hb.
  injection Hb as <-. vm_compute in Hk. discriminate.
Qed.

Lemma getText_resolution_witness :
  (∀ t, requested_spec (Pair (mkI18nText "GREETING" "Hello {0}")) = Some t →
        reads_inherited (bundleData (outside loaded) !! packageName pkg_a)
          (key t) = false) ∧
  fst (getText formatMessage pkg_a
         (Pair (mkI18nText "GREETING" "Hello {0}")) ["World"] loaded)
  = "Hallo World".
Proof.
  assert (Hown : ∀ t,
            requested_spec (Pair (mkI18nText "GREETING" "Hello {0}")) = Some t →
            reads_inherited (bundleData (outside loaded) !! packageName pkg_a)
              (key t) = false)
    by (intros t [= <-]; reflexivity).
  split; [exact Hown|].
  exact (proj2 (getText_resolution formatMessage pkg_a
                  (Pair (mkI18nText "GREETING" "Hello {0}")) ["World"] loaded
                  Hown)).
Defined.

Lemma getText_warning_witness :
  (∀ t, requested_spec (Pair (mkI18nText "MISSING" "Fallback")) = Some t →
        reads_inherited (bundleData (outside loaded) !! packageName pkg_a)
          (key t) = false) ∧
  untranslated loaded "pkg-a" "MISSING" ∧
  getText formatMessage pkg_a (Pair (mkI18nText "MISSING" "Fallback")) [] loaded
  = ("Fallback",
     with_warning
       "Key MISSING not found in the i18n bundle, the default text will be used"
       loaded).
Proof.
  assert (Hown : ∀ t,
            requested_spec (Pair (mkI18nText "MISSING" "Fallback")) = Some t →
            reads_inherited (bundleData (outside loaded) !! packageName pkg_a)
              (key t) = false)
    by (intros t [= <-]; reflexivity).
  assert (Hl : untranslated loaded "pkg-a" "MISSING")
    by (exists greetings; split; reflexivity).
  split; [exact Hown|]. split; [exact Hl|].
  pose proof (getText_warning formatMessage pkg_a
                (Pair (mkI18nText "MISSING" "Fallback")) [] loaded Hown) as H.
  cbn zeta in H. change (requested_spec _) with
    (Some (mkI18nText "MISSING" "Fallback")) in H.
  destruct H as (_ & H & _). destruct (H Hl) as [Hw Hr].
  rewrite (surjective_pairing (getText _ _ _ _ _)). rewrite Hw, Hr. reflexivity.
Defined.

Lemma getText_blank_translation_witness :
  "EMPTY" ≠ "" ∧
  getText formatMessage pkg_a (Pair (mkI18nText "EMPTY" "Default")) [] loaded_blank
  = ("Default", with_warning (missing_key_warning "EMPTY") loaded_blank).
Proof.
  split; [discriminate|].
  apply (getText_blank_translation formatMessage pkg_a "EMPTY" "Default" []
           loaded_blank (<[ "EMPTY" := "" ]> greetings));
    [discriminate|reflexivity|reflexivity].
Defined.

Lemma getI18nBundleSync_identity_witness :
  (CallSync "pkg-a" ∉
     calls (run formatMessage fetchI18nBundle earlier
              (loaded_module (mkOutside [] ∅ [])))) ∧
  fst (getI18nBundleSync "pkg-a"
         (run formatMessage fetchI18nBundle busy
            (snd (getI18nBundleSync "pkg-a"
                    (run formatMessage fetchI18nBundle earlier
                       (loaded_module (mkOutside [] ∅ [])))))))
  = 1.
Proof.
  assert (Hfirst : CallSync "pkg-a" ∉
            calls (run formatMessage fetchI18nBundle earlier
                     (loaded_module (mkOutside [] ∅ []))))
    by (apply (bool_decide_unpack _); vm_compute; exact I).
  split; [exact Hfirst|].
  pose proof (getI18nBundleSync_identity formatMessage fetchI18nBundle
                (mkOutside [] ∅ []) earlier "pkg-a" busy Hfirst) as H.
  cbn zeta in H. exact (proj1 (proj2 (proj2 (proj2 (proj2 H))))).
Defined.

Lemma getI18nBundle_custom_or_default_witness :
  forallb exported client = true ∧
  customGetI18nBundle
    (run formatMessage fetchI18nBundle client
       (snd (registerCustomI18nBundleGetter freshGetter loaded)))
  = Some failingGetter.
Proof.
  split; [reflexivity|].
  pose proof (getI18nBundle_custom_or_default formatMessage fetchI18nBundle
                freshGetter loaded client "pkg-a" eq_refl) as H.
  cbn zeta in H. exact (proj1 (proj2 H)).
Defined.

End I18nFacts.

Module TreeItemFacts.
Import TreeItem.

Ltac run_method :=
  unfold _onkeydown, tree_keys, super_onkeydown, onBeforeRendering, toggle,
    _toggleClick, read, assign, fireEvent, mbind, mret, Method_bind,
    Method_ret in *.

Lemma count_fired_snoc n log f :
  count_fired n (log ++ [f]) =
    (count_fired n log + if bool_decide (name f = n) then 1 else 0)%nat.
Proof.
  unfold count_fired. rewrite filter_app, length_app. f_equal.
  cbn. unfold filter, list_filter. cbn.
  destruct (decide_rel _ _ _); [by rewrite bool_decide_true|by rewrite bool_decide_false].
Qed.

Section Facts.
Context {Rest : Type}.
Variable isLeft isRight : DomEvent → bool.
Variable ListItem_onkeydown :
  DomEvent → ListItem Rest → ListItem Rest * list Fired.

Local Abbreviation _onkeydown := (_onkeydown isLeft isRight ListItem_onkeydown).

(** The handler as one equation: the inherited handler's effect, then
    what the two arrow-key blocks dispatch. *)
Lemma _onkeydown_unfold this e (t : TreeItemBase Rest) :
  _onkeydown this e t =
    (tt, set_super (fst (ListItem_onkeydown e (super t))) t,
     snd (ListItem_onkeydown e (super t))
     ++ (if negb (_fixed t) && showToggleButton t && isRight e
         then [mkFired (if expanded t then "step-in" else "toggle") this]
         else [])
     ++ (if negb (_fixed t) && isLeft e
         then if expanded t then [mkFired "toggle" this]
              else if hasParent t then [mkFired "step-out" this] else []
         else [])).
Proof.
  run_method. destruct (ListItem_onkeydown e (super t)) as [b inherited].
  destruct t as [? ? ? tb ex ? ? ? ? ? ? ? ? ? fx ? ?]; cbn.
  destruct fx, tb, (isRight e), (isLeft e), ex; cbn;
    try destruct (hasParent _); cbn; by rewrite ?app_nil_r.
Qed.

(** C5.  Right arrow, with [_fixed] unset and [showToggleButton] set:
    on a collapsed item the handler dispatches, after whatever the
    inherited handler dispatched, one [toggle] carrying the item, and no
    [step-in]; on an expanded item one [step-in] and no [toggle].  With
    [_fixed] set or [showToggleButton] unset it dispatches nothing of
    its own.  In every case [expanded] is left as it was. *)
Theorem right_arrow_keydown this e (t : TreeItemBase Rest) :
  isRight e = true →
  isLeft e = false →
  let b := fst (ListItem_onkeydown e (super t)) in
  let inherited := snd (ListItem_onkeydown e (super t)) in
  let fired := snd (_onkeydown this e t) in
  expanded (snd (fst (_onkeydown this e t))) = expanded t ∧
  (_fixed t = false → showToggleButton t = true → expanded t = false →
     _onkeydown this e t
       = (tt, set_super b t, inherited ++ [mkFired "toggle" this]) ∧
     count_fired "toggle" fired = (count_fired "toggle" inherited + 1)%nat ∧
     count_fired "step-in" fired = count_fired "step-in" inherited) ∧
  (_fixed t = false → showToggleButton t = true → expanded t = true →
     _onkeydown this e t
       = (tt, set_super b t, inherited ++ [mkFired "step-in" this]) ∧
     count_fired "step-in" fired = (count_fired "step-in" inherited + 1)%nat ∧
     count_fired "toggle" fired = count_fired "toggle" inherited) ∧
  (_fixed t = true ∨ showToggleButton t = false →
     _onkeydown this e t = (tt, set_super b t, inherited)).
Proof.
  intros Hr Hl. cbn zeta. rewrite _onkeydown_unfold, Hr, Hl.
  rewrite andb_false_r, app_nil_r, andb_true_r. cbn [fst snd].
  split_and!.
  - done.
  - intros -> -> ->. cbn. split; [done|].
    rewrite !count_fired_snoc. cbn. split; [done|]. by rewrite Nat.add_0_r.
  - intros -> -> ->. cbn. split; [done|].
    rewrite !count_fired_snoc. cbn. split; [done|]. by rewrite Nat.add_0_r.
  - intros [-> | ->]; cbn; rewrite ?andb_false_r, app_nil_r; done.
Qed.

(** C6.  Left arrow, with [_fixed] unset: on an expanded item the
    handler dispatches one [toggle] and no [step-out]; on a collapsed
    item of level above 1, one [step-out] and no [toggle]; on a
    collapsed item of level 1, nothing.  With [_fixed] set the handler
    dispatches nothing of its own, whatever the key. *)
Theorem left_arrow_keydown this e (t : TreeItemBase Rest) :
  isLeft e = true →
  isRight e = false →
  let b := fst (ListItem_onkeydown e (super t)) in
  let inherited := snd (ListItem_onkeydown e (super t)) in
  let fired := snd (_onkeydown this e t) in
  (_fixed t = false → expanded t = true →
     _onkeydown this e t
       = (tt, set_super b t, inherited ++ [mkFired "toggle" this]) ∧
     count_fired "toggle" fired = (count_fired "toggle" inherited + 1)%nat ∧
     count_fired "step-out" fired = count_fired "step-out" inherited) ∧
  (_fixed t = false → expanded t = false → (1 < level t)%Z →
     _onkeydown this e t
       = (tt, set_super b t, inherited ++ [mkFired "step-out" this]) ∧
     count_fired "step-out" fired = (count_fired "step-out" inherited + 1)%nat ∧
     count_fired "toggle" fired = count_fired "toggle" inherited) ∧
  (_fixed t = false → expanded t = false → level t = 1%Z →
     _onkeydown this e t = (tt, set_super b t, inherited)) ∧
  (∀ e' : DomEvent, _fixed t = true →
     _onkeydown this e' t
       = (tt, set_super (fst (ListItem_onkeydown e' (super t))) t,
          snd (ListItem_onkeydown e' (super t)))).
Proof.
  intros Hl Hr. cbn zeta. rewrite _onkeydown_unfold, Hr, Hl.
  rewrite andb_false_r, andb_true_r. cbn [fst snd app].
  split_and!.
  - intros -> ->. cbn. split; [done|].
    rewrite !count_fired_snoc. cbn. split; [done|]. by rewrite Nat.add_0_r.
  - intros -> -> Hlevel. unfold hasParent.
    apply Z.ltb_lt in Hlevel as ->. cbn. split; [done|].
    rewrite !count_fired_snoc. cbn. split; [done|]. by rewrite Nat.add_0_r.
  - intros -> -> Hlevel. unfold hasParent. rewrite Hlevel. cbn.
    by rewrite app_nil_r.
  - intros e' Hfixed. rewrite _onkeydown_unfold, Hfixed. cbn.
    by rewrite app_nil_r.
Qed.

(** C7.  [_toggleClick] stops the propagation of the event, dispatches
    one [toggle] carrying the item and nothing else, and leaves every
    property of the item, [expanded] included, as it was.  [toggle()]
    negates [expanded], whatever the other properties are, and
    dispatches nothing. *)
Theorem toggleClick_is_an_event_source this e (t : TreeItemBase Rest) :
  _toggleClick this e t = (stopPropagation e, t, [mkFired "toggle" this]) ∧
  propagationStopped (stopPropagation e) = true ∧
  count_fired "toggle" (snd (_toggleClick this e t)) = 1%nat ∧
  toggle t = (tt, set_expanded (negb (expanded t)) t, []) ∧
  expanded (snd (fst (toggle t))) = negb (expanded t).
Proof. by split_and!. Qed.

(** C8, amended.  [_toggleIconName] is ["navigation-down-arrow"] on an
    expanded item and ["navigation-right-arrow"] on a collapsed one.
    The toggle button is shown at the beginning iff [showToggleButton],
    not [_minimal] and not [_toggleButtonEnd]; at the end iff
    [showToggleButton], not [_minimal] and [_toggleButtonEnd]; at
    neither position on a [_minimal] item. *)
Theorem toggle_icon_and_placement (t : TreeItemBase Rest) :
  _toggleIconName t
    = (if expanded t then "navigation-down-arrow"
       else "navigation-right-arrow") ∧
  _showToggleButtonBeginning t
    = showToggleButton t && negb (_minimal t) && negb (_toggleButtonEnd t) ∧
  _showToggleButtonEnd t
    = showToggleButton t && negb (_minimal t) && _toggleButtonEnd t ∧
  _minimal t && (_showToggleButtonBeginning t || _showToggleButtonEnd t)
    = false.
Proof.
  split_and!; try done.
  unfold _showToggleButtonBeginning, _showToggleButtonEnd.
  by destruct (_minimal t), (showToggleButton t), (_toggleButtonEnd t).
Qed.

(** C10.  [onBeforeRendering] sets [actionable] to [false] and stores
    in [showToggleButton] the value of [requiresToggleButton], which is
    [!_fixed && (hasChildren || items.length > 0)]; the value that
    [showToggleButton] held before plays no part, so an assignment from
    outside does not survive a render.  Nothing else changes and
    nothing is dispatched. *)
Theorem onBeforeRendering_overwrites (t : TreeItemBase Rest) :
  let t' := snd (fst (onBeforeRendering t)) in
  actionable (super t') = false ∧
  showToggleButton t'
    = negb (_fixed t) && (hasChildren t || bool_decide (0 < length (items t))) ∧
  showToggleButton t' = requiresToggleButton t ∧
  (∀ v, onBeforeRendering (set_showToggleButton v t) = onBeforeRendering t) ∧
  onBeforeRendering t
    = (tt,
       set_showToggleButton (requiresToggleButton t)
         (set_super (set_actionable false (super t)) t),
       []).
Proof.
  cbn zeta. split_and!; try done.
Qed.

End Facts.

(** *** Runs on concrete data *)

Import Sample.

(** C8, as stated, fails: an expanded item's icon is not named
    ["collapse-icon"]. *)
Lemma toggle_icon_is_not_collapse_icon :
  expanded (node true true false) = true ∧
  _toggleIconName (node true true false) ≠ "collapse-icon".
Proof. split; [reflexivity|discriminate]. Qed.

Lemma right_arrow_keydown_witness :
  Keys.isRight arrowRight = true ∧
  Keys.isLeft arrowRight = false ∧
  _onkeydown Keys.isLeft Keys.isRight ListItem_onkeydown 7 arrowRight
    (node true false false)
  = (tt, node true false false, [mkFired "toggle" 7]).
Proof.
  split; [reflexivity|]. split; [reflexivity|].
  pose proof (right_arrow_keydown Keys.isLeft Keys.isRight ListItem_onkeydown
                7 arrowRight (node true false false) eq_refl eq_refl) as H.
  cbn zeta in H. destruct H as (_ & H & _).
  exact (proj1 (H eq_refl eq_refl eq_refl)).
Defined.

Lemma left_arrow_keydown_witness :
  Keys.isLeft arrowLeft = true ∧
  Keys.isRight arrowLeft = false ∧
  _onkeydown Keys.isLeft Keys.isRight ListItem_onkeydown 7 arrowLeft
    (node true false false)
  = (tt, node true false false, [mkFired "step-out" 7]) ∧
  _onkeydown Keys.isLeft Keys.isRight ListItem_onkeydown 1 arrowLeft root
  = (tt, root, []).
Proof.
  split; [reflexivity|]. split; [reflexivity|].
  split.
  - pose proof (left_arrow_keydown Keys.isLeft Keys.isRight ListItem_onkeydown
                  7 arrowLeft (node true false false) eq_refl eq_refl) as H.
    cbn zeta in H. destruct H as (_ & H & _).
    exact (proj1 (H eq_refl eq_refl eq_refl)).
  - pose proof (left_arrow_keydown Keys.isLeft Keys.isRight ListItem_onkeydown
                  1 arrowLeft root eq_refl eq_refl) as H.
    cbn zeta in H. destruct H as (_ & _ & H & _).
    exact (H eq_refl eq_refl eq_refl).
Defined.

End TreeItemFacts.

(** * Further properties of i18nBundle.ts *)

Module I18nMore.
Import I18n Spec Reading Discipline I18nFacts.

Lemma with_warning_data msg w :
  bundleData (outside (with_warning msg w)) = bundleData (outside w).
Proof. done. Qed.

Lemma append_cons c (s t : string) : String c s +:+ t = String c (s +:+ t).
Proof. reflexivity. Qed.

Lemma append_nil (t : string) : "" +:+ t = t.
Proof. reflexivity. Qed.

Lemma length_append (s t : string) :
  String.length (s +:+ t) = (String.length s + String.length t)%nat.
Proof.
  induction s as [|c s IH]; [done|].
  rewrite append_cons. cbn. by rewrite IH.
Qed.

(** Two strings with a common suffix appended are equal only if they are
    equal. *)
Lemma append_inj_r (s1 s2 t : string) : s1 +:+ t = s2 +:+ t → s1 = s2.
Proof.
  intros H.
  assert (Hlen : String.length s1 = String.length s2).
  { apply (f_equal String.length) in H. rewrite !length_append in H. lia. }
  revert s2 H Hlen. induction s1 as [|c s1 IH]; intros [|c' s2] H Hlen;
    cbn in Hlen; try done.
  rewrite !append_cons in H. simplify_eq. f_equal. by apply IH.
Qed.

Section Facts.
Context {Param : Type}.
Variable formatMessage : JS.MessageText → list Param → string.
Variable fetchI18nBundle : string → Outside → Settled unit * Outside.

Local Abbreviation getText := (getText formatMessage).
Local Abbreviation getI18nBundle := (getI18nBundle fetchI18nBundle).
Local Abbreviation run := (run formatMessage fetchI18nBundle).
Local Abbreviation run_op := (run_op formatMessage fetchI18nBundle).

(** What [getText] returns is a function of the request and of the data
    of the bundle's package. *)
Lemma getText_value this textObj params w w' :
  bundleData (outside w') = bundleData (outside w) →
  fst (getText this textObj params w') = fst (getText this textObj params w).
Proof.
  intros Hdata. destruct (requested_spec textObj) as [t|] eqn:Hreq.
  - rewrite !(getText_request _ _ _ _ _ _ Hreq). cbn. by rewrite Hdata.
  - by rewrite !(getText_empty_request _ _ _ _ _ Hreq).
Qed.

Lemma getText_data this textObj params w :
  bundleData (outside (snd (getText this textObj params w)))
    = bundleData (outside w).
Proof.
  destruct (getText_frame formatMessage this textObj params w) as [c ->]. done.
Qed.

(** A request for a key whose read is falsy: one warning more. *)
Lemma getText_reads_falsy this textObj params t w :
  requested_spec textObj = Some t →
  reads_falsy w (packageName this) (key t) →
  snd (getText this textObj params w)
    = with_warning (missing_key_warning (key t)) w.
Proof.
  intros Hreq (b & Hb & Hk).
  pose proof (getText_request formatMessage this textObj params w t Hreq) as E.
  cbn zeta in E. rewrite Hb, Hk in E. by rewrite E.
Qed.

Lemma reads_falsy_with_warning msg w p k :
  reads_falsy w p k → reads_falsy (with_warning msg w) p k.
Proof. intros (b & ? & ?). by exists b. Qed.

Lemma times_succ {A} n (m : M A) w :
  times (S n) m w = times n m (snd (m w)).
Proof. cbn. run_M. by destruct (m w). Qed.

(** X1.  The diagnostic is not deduplicated: [n] calls for a key at
    which the read of the loaded data is falsy (the data has no non-empty
    string under the key, and the key names no member of
    [Object.prototype]) put [n] copies of the warning on the console, and
    change nothing else. *)
Theorem getText_warns_every_call this textObj params t n w :
  requested_spec textObj = Some t →
  reads_falsy w (packageName this) (key t) →
  snd (times n (getText this textObj params) w) =
    set_outside
      (mkOutside (heap (outside w)) (bundleData (outside w))
         (console (outside w)
          ++ replicate n
               ("Key " +:+ key t
                +:+ " not found in the i18n bundle, the default text will be used")))
      w.
Proof.
  intros Hreq. revert w. induction n as [|n IH]; intros w Hfalsy.
  - cbn. rewrite app_nil_r. by destruct w as [[]].
  - rewrite times_succ, (getText_reads_falsy _ _ _ _ _ Hreq Hfalsy).
    rewrite IH by by apply reads_falsy_with_warning.
    unfold with_warning. cbn. by rewrite <-app_assoc.
Qed.

(** X2.  A call of [getText] has no influence on what a later call
    returns: the result of the second call is what it would have been
    without the first. *)
Theorem getText_independent_of_earlier_calls
    this1 textObj1 params1 this2 textObj2 params2 w :
  fst (getText this2 textObj2 params2 (snd (getText this1 textObj1 params1 w)))
    = fst (getText this2 textObj2 params2 w).
Proof. apply getText_value, getText_data. Qed.

(** X3.  While no data is loaded for the bundle's package, [getText]
    emits nothing, changes nothing, and returns the formatted
    [defaultText], or the formatted key when [defaultText] is empty
    ([""] for an empty request). *)
Theorem getText_without_data this textObj params w :
  bundleData (outside w) !! packageName this = None →
  getText this textObj params w =
    (match requested_spec textObj with
     | None => ""
     | Some t => formatMessage (JS.Text (JS.or (defaultText t) (key t))) params
     end, w).
Proof.
  intros Hnone. destruct (requested_spec textObj) as [t|] eqn:Hreq.
  - rewrite (getText_request _ _ _ _ _ _ Hreq). cbn zeta. rewrite Hnone.
    done.
  - by rewrite (getText_empty_request _ _ _ _ _ Hreq).
Qed.

(** *** The registry and the bundles it holds *)

Lemma registry_sound_grow w w' :
  registry_sound w →
  I18nBundleInstances w' = I18nBundleInstances w →
  heap (outside w) `prefix_of` heap (outside w') →
  registry_sound w'.
Proof.
  intros Hw Hreg Hheap p b Hp. rewrite Hreg in Hp.
  eapply prefix_lookup_Some; [by apply Hw|done].
Qed.

Lemma getI18nBundleSync_sound p w :
  registry_sound w → registry_sound (snd (getI18nBundleSync p w)).
Proof.
  intros Hw. destruct (I18nBundleInstances w !! p) as [b|] eqn:H.
  - by rewrite (getI18nBundleSync_hit _ _ _ H).
  - rewrite (getI18nBundleSync_miss _ _ H). intros q b. cbn.
    destruct (decide (p = q)) as [->|Hne].
    + rewrite lookup_insert_eq. intros [= <-].
      rewrite lookup_app_r by done. by rewrite Nat.sub_diag.
    + rewrite lookup_insert_ne by done. intros Hq.
      by apply lookup_app_l_Some, Hw.
Qed.

Lemma run_op_disciplined op w :
  fetch_keeps_bundles fetchI18nBundle →
  op_keeps_bundles op →
  disciplined w → disciplined (snd (run_op op w)).
Proof.
  intros Hfetch Hop [Hsound Hslot]. split.
  - destruct op as [p|p|g|this textObj params|f]; cbn.
    + run_M. destruct (getI18nBundle p w) as [r w'] eqn:E. cbn.
      replace w' with (snd (getI18nBundle p w)) by (by rewrite E). clear E.
      destruct (customGetI18nBundle w) as [g|] eqn:Hg.
      * rewrite (getI18nBundle_custom _ _ _ _ Hg). cbn.
        apply (registry_sound_grow w); [done..|]. by apply Hslot.
      * rewrite (getI18nBundle_default _ _ _ Hg). cbn zeta.
        set (w1 := set_outside _ _).
        assert (registry_sound w1)
          by (apply (registry_sound_grow w); [done..|apply Hfetch]).
        destruct (fst (fetchI18nBundle p (outside w))); cbn; [|done].
        by apply getI18nBundleSync_sound.
    + run_M. destruct (getI18nBundleSync p w) as [r w'] eqn:E. cbn.
      replace w' with (snd (getI18nBundleSync p w)) by (by rewrite E).
      by apply getI18nBundleSync_sound.
    + done.
    + run_M. destruct (heap (outside w) !! this) as [b|]; [|done].
      destruct (getText_frame formatMessage b textObj params w) as [c Hc].
      destruct (I18n.getText formatMessage b textObj params w) as [r w'].
      cbn in *. by subst.
    + run_M. apply (registry_sound_grow w); [done..|]. apply Hop.
  - intros g. rewrite (run_op_getter formatMessage fetchI18nBundle).
    destruct op; cbn; try apply Hslot. intros [= <-]. apply Hop.
Qed.

Lemma run_disciplined ops w :
  fetch_keeps_bundles fetchI18nBundle →
  Forall op_keeps_bundles ops →
  disciplined w → disciplined (run ops w).
Proof.
  intros Hfetch Hops. revert w.
  induction Hops as [|op ops Hop Hops IH]; intros w Hw; [done|].
  cbn [I18n.run]. by apply IH, run_op_disciplined.
Qed.

(** X5.  As long as foreign code (the loader, the getters, anything
    else) leaves existing bundles alone, every reference in the registry
    is a bundle whose [packageName] is the key it is registered under,
    and two different packages never share a bundle. *)
Theorem registry_holds_one_bundle_per_package o ops :
  fetch_keeps_bundles fetchI18nBundle →
  Forall op_keeps_bundles ops →
  let w := run ops (loaded_module o) in
  registry_sound w ∧
  ∀ p q b, I18nBundleInstances w !! p = Some b →
           I18nBundleInstances w !! q = Some b → p = q.
Proof.
  intros Hfetch Hops w.
  assert (Hw : disciplined w).
  { apply run_disciplined; [done..|]. split; [|done].
    intros p b. cbn. by rewrite lookup_empty. }
  destruct Hw as [Hsound _]. split; [done|].
  intros p q b Hp Hq. apply Hsound in Hp, Hq. congruence.
Qed.

(** X6.  Once the default path has fulfilled for [p], the bundle it
    returned is the bundle for [p] from then on: whatever program runs in
    between, [getI18nBundleSync p] returns it, and so does the default
    path again whenever its fetch fulfils. *)
Theorem getI18nBundle_default_is_stable p b w w1 ops :
  customGetI18nBundle w = None →
  getI18nBundle p w = (Fulfilled b, w1) →
  let w2 := run ops w1 in
  fst (getI18nBundleSync p w2) = b ∧
  (customGetI18nBundle w2 = None →
   (∃ u, fst (fetchI18nBundle p (outside w2)) = Fulfilled u) →
   fst (getI18nBundle p w2) = Fulfilled b).
Proof.
  intros Hnone Hget w2.
  rewrite (getI18nBundle_default _ _ _ Hnone) in Hget. cbn zeta in Hget.
  destruct (fst (fetchI18nBundle p (outside w))); [|done].
  injection Hget as Hb Hw1.
  assert (Hreg : I18nBundleInstances w1 !! p = Some b).
  { rewrite <-Hw1, <-Hb. apply getI18nBundleSync_registered. }
  assert (Hreg2 : I18nBundleInstances w2 !! p = Some b).
  { eapply lookup_weaken; [done|]. apply run_mono. }
  split.
  - by rewrite (getI18nBundleSync_hit _ _ _ Hreg2).
  - intros Hnone2 [u Hu].
    rewrite (getI18nBundle_default _ _ _ Hnone2). cbn zeta. rewrite Hu. cbn.
    f_equal. by rewrite (getI18nBundleSync_hit p b).
Qed.

(** X7.  Counting from the loading of the module, the registry has an
    entry for a package if and only if [getI18nBundleSync] has run for
    it; in particular a rejected fetch and a custom getter register
    nothing. *)
Theorem registry_matches_sync_calls o ops p :
  let w := run ops (loaded_module o) in
  is_Some (I18nBundleInstances w !! p) ↔ CallSync p ∈ calls w.
Proof.
  apply (run_tracks formatMessage fetchI18nBundle), loaded_module_tracks.
Qed.

End Facts.

(** X4.  The diagnostic names its key: two keys yield the same message
    only if they are the same key. *)
Theorem missing_key_warning_inj k1 k2 :
  missing_key_warning k1 = missing_key_warning k2 → k1 = k2.
Proof.
  unfold missing_key_warning. intros H.
  apply (append_inj_r k1 k2
           " not found in the i18n bundle, the default text will be used").
  by apply (inj (String.app "Key ")) in H.
Qed.

(** *** Runs on concrete data *)

Import Sample.

Lemma getText_warns_every_call_witness :
  reads_falsy loaded "pkg-a" "MISSING" ∧
  console (outside (snd (times 3
    (getText formatMessage pkg_a (Pair (mkI18nText "MISSING" "Fallback")) [])
    loaded)))
  = replicate 3
      "Key MISSING not found in the i18n bundle, the default text will be used".
Proof.
  assert (Hl : reads_falsy loaded "pkg-a" "MISSING")
    by (exists greetings; split; reflexivity).
  split; [exact Hl|].
  by rewrite (getText_warns_every_call formatMessage pkg_a
                (Pair (mkI18nText "MISSING" "Fallback")) []
                (mkI18nText "MISSING" "Fallback") 3 loaded eq_refl Hl).
Defined.

Lemma getText_without_data_witness :
  bundleData (outside initial) !! packageName pkg_a = None ∧
  getText formatMessage pkg_a (Pair (mkI18nText "GREETING" "")) ["World"] initial
  = ("GREETING", initial).
Proof.
  split; [reflexivity|].
  exact (getText_without_data formatMessage pkg_a
           (Pair (mkI18nText "GREETING" "")) ["World"] initial eq_refl).
Defined.

Lemma missing_key_warning_inj_witness :
  missing_key_warning "A" = missing_key_warning "A" ∧ "A" = "A".
Proof.
  split; [reflexivity|].
  exact (missing_key_warning_inj "A" "A" eq_refl).
Defined.

Lemma sample_fetch_keeps_bundles : fetch_keeps_bundles fetchI18nBundle.
Proof. intros p o. unfold fetchI18nBundle. by destruct (String.eqb p "pkg-a"). Qed.

Lemma sample_busy_keeps_bundles : Forall op_keeps_bundles busy.
Proof.
  repeat constructor. intros p o. cbn. by apply prefix_app_r.
Qed.

Lemma registry_holds_one_bundle_per_package_witness :
  fetch_keeps_bundles fetchI18nBundle ∧
  Forall op_keeps_bundles busy ∧
  registry_sound
    (run formatMessage fetchI18nBundle busy (loaded_module (mkOutside [] ∅ []))).
Proof.
  split; [exact sample_fetch_keeps_bundles|].
  split; [exact sample_busy_keeps_bundles|].
  exact (proj1 (registry_holds_one_bundle_per_package formatMessage
                  fetchI18nBundle (mkOutside [] ∅ []) busy
                  sample_fetch_keeps_bundles sample_busy_keeps_bundles)).
Defined.

Lemma getI18nBundle_default_is_stable_witness :
  customGetI18nBundle initial = None ∧
  fst (getI18nBundle fetchI18nBundle "pkg-a" initial) = Fulfilled 0 ∧
  fst (getI18nBundleSync "pkg-a"
         (run formatMessage fetchI18nBundle earlier
            (snd (getI18nBundle fetchI18nBundle "pkg-a" initial)))) = 0.
Proof.
  split; [reflexivity|]. split; [reflexivity|].
  exact (proj1 (getI18nBundle_default_is_stable formatMessage fetchI18nBundle
                  "pkg-a" 0 initial
                  (snd (getI18nBundle fetchI18nBundle "pkg-a" initial))
                  earlier eq_refl eq_refl)).
Defined.

End I18nMore.

(** * Further properties of TreeItemBase.ts *)

Module TreeItemMore.
Import TreeItem TreeItemFacts.

Section Facts.
Context {Rest : Type}.
Variable isLeft isRight : DomEvent → bool.
Variable ListItem_onkeydown :
  DomEvent → ListItem Rest → ListItem Rest * list Fired.

Local Abbreviation _onkeydown := (_onkeydown isLeft isRight ListItem_onkeydown).
Local Abbreviation tree_keys := (tree_keys (Rest:=Rest) isLeft isRight).

(** What the two arrow-key blocks dispatch, and that they change no
    property. *)
Lemma tree_keys_unfold this e (t : TreeItemBase Rest) :
  tree_keys this e t =
    (tt, t,
     (if negb (_fixed t) && showToggleButton t && isRight e
      then [mkFired (if expanded t then "step-in" else "toggle") this]
      else [])
     ++ (if negb (_fixed t) && isLeft e
         then if expanded t then [mkFired "toggle" this]
              else if hasParent t then [mkFired "step-out" this] else []
         else [])).
Proof.
  run_method. destruct t as [? ? ? tb ex ? ? ? ? ? ? ? ? ? fx ? ?]; cbn.
  destruct fx, tb, (isRight e), (isLeft e), ex; cbn;
    try destruct (hasParent _); by cbn.
Qed.

(** X8.  [toggle()] is its own inverse: two calls in a row leave every
    property of the item as it was, and dispatch nothing. *)
Theorem toggle_twice (t : TreeItemBase Rest) :
  (toggle;; toggle) t = (tt, t, []).
Proof.
  run_method. cbn. destruct t as [? ? ? ? ex ? ? ? ? ? ? ? ? ? ? ? ?]; cbn.
  by rewrite negb_involutive.
Qed.

(** X9.  [onBeforeRendering] is idempotent: a second run in a row
    changes nothing that the first has not set. *)
Theorem onBeforeRendering_idempotent (t : TreeItemBase Rest) :
  (onBeforeRendering;; onBeforeRendering) t = onBeforeRendering t.
Proof. by run_method. Qed.

(** X10.  Whatever the key, [_onkeydown] assigns to no property of the
    tree item: the item afterwards is the item before with the base class
    state that the inherited handler left.  What it dispatches after the
    inherited events carries the item itself, is named [toggle],
    [step-in] or [step-out], is at most one event unless the key counts
    as both arrows, and is nothing for a key that is neither arrow. *)
Theorem keydown_dispatches_only this e (t : TreeItemBase Rest) :
  ∃ own,
    _onkeydown this e t
      = (tt, set_super (fst (ListItem_onkeydown e (super t))) t,
         snd (ListItem_onkeydown e (super t)) ++ own) ∧
    Forall (λ f, item f = this ∧
                 name f ∈ ["toggle"; "step-in"; "step-out"]) own ∧
    (isLeft e && isRight e = false → (length own ≤ 1)%nat) ∧
    (isLeft e = false → isRight e = false → own = []).
Proof.
  rewrite _onkeydown_unfold. eexists. split; [done|].
  destruct (_fixed t), (showToggleButton t), (isRight e), (isLeft e),
    (expanded t); cbn; try destruct (hasParent t); cbn;
    (split_and!; [repeat constructor; set_solver | (done || lia) | done ]).
Qed.

(** X11.  A render followed by a right arrow: whatever
    [showToggleButton] was set to before, the key dispatches an event
    exactly when the item is not fixed and has children, declared or
    slotted; a right arrow on a leaf does nothing. *)
Theorem right_arrow_after_render this e (t : TreeItemBase Rest) :
  isRight e = true →
  isLeft e = false →
  snd ((onBeforeRendering;; tree_keys this e) t) =
    if negb (_fixed t) && (hasChildren t || bool_decide (0 < length (items t)))
    then [mkFired (if expanded t then "step-in" else "toggle") this]
    else [].
Proof.
  intros Hr Hl. unfold mbind, Method_bind.
  change (onBeforeRendering t)
    with (tt,
          set_showToggleButton (requiresToggleButton t)
            (set_super (set_actionable false (super t)) t),
          @nil Fired).
  cbn iota beta. rewrite tree_keys_unfold, Hr, Hl. cbn.
  rewrite andb_false_r, andb_true_r, app_nil_r.
  unfold requiresToggleButton.
  by destruct (_fixed t), (hasChildren t), (bool_decide _).
Qed.

(** X12.  The toggle button is never shown at both positions; it is
    shown at one of them exactly when [showToggleButton] is set and the
    item is not minimal. *)
Theorem toggle_button_positions_exclusive (t : TreeItemBase Rest) :
  _showToggleButtonBeginning t && _showToggleButtonEnd t = false ∧
  _showToggleButtonBeginning t || _showToggleButtonEnd t
    = showToggleButton t && negb (_minimal t).
Proof.
  unfold _showToggleButtonBeginning, _showToggleButtonEnd.
  by destruct (showToggleButton t), (_minimal t), (_toggleButtonEnd t).
Qed.

(** X13.  Expanding and collapsing by keyboard is a round trip: on a
    collapsed item that can be toggled, a right arrow, the [toggle()] of
    its listener, a left arrow and [toggle()] again dispatch two [toggle]
    events and leave the item as it was. *)
Theorem keyboard_expand_collapse_round_trip this eR eL (t : TreeItemBase Rest) :
  isRight eR = true → isLeft eR = false →
  isLeft eL = true → isRight eL = false →
  _fixed t = false → showToggleButton t = true → expanded t = false →
  (tree_keys this eR;; toggle;; tree_keys this eL;; toggle) t
    = (tt, t, [mkFired "toggle" this; mkFired "toggle" this]).
Proof.
  intros HrR HlR HlL HrL Hfixed Hshow Hexp.
  destruct t as [? ? ? tb ex ? ? ? ? ? ? ? ? ? fx ? ?]; cbn in *. subst.
  run_method. cbn. rewrite HrR, HlR, HlL, HrL. done.
Qed.

(** X14.  Left arrow on a collapsed item that is not fixed: [step-out]
    is dispatched exactly when the item is indented, that is when
    [effectiveLevel] is positive; at level 1 and at any level below it
    nothing is dispatched. *)
Theorem left_arrow_steps_out_iff_indented this e (t : TreeItemBase Rest) :
  isLeft e = true →
  isRight e = false →
  _fixed t = false →
  expanded t = false →
  snd (tree_keys this e t) =
    if bool_decide (0 < effectiveLevel t)%Z then [mkFired "step-out" this]
    else [].
Proof.
  intros Hl Hr Hfixed Hexp.
  rewrite tree_keys_unfold, Hl, Hr, Hfixed, Hexp. cbn.
  rewrite andb_false_r. cbn. unfold hasParent, effectiveLevel.
  destruct (Z.ltb_spec 1 (level t)).
  - rewrite bool_decide_true by lia. done.
  - rewrite bool_decide_false by lia. done.
Qed.

End Facts.

(** *** Runs on concrete data *)

Import Sample.

Lemma right_arrow_after_render_witness :
  Keys.isRight arrowRight = true ∧
  Keys.isLeft arrowRight = false ∧
  snd ((onBeforeRendering;; tree_keys Keys.isLeft Keys.isRight 1 arrowRight) root)
  = [mkFired "toggle" 1].
Proof.
  split; [reflexivity|]. split; [reflexivity|].
  exact (right_arrow_after_render Keys.isLeft Keys.isRight 1 arrowRight root
           eq_refl eq_refl).
Defined.

Lemma keyboard_expand_collapse_round_trip_witness :
  Keys.isRight arrowRight = true ∧ Keys.isLeft arrowLeft = true ∧
  (tree_keys Keys.isLeft Keys.isRight 7 arrowRight;; toggle;;
   tree_keys Keys.isLeft Keys.isRight 7 arrowLeft;; toggle)
    (node true false false)
  = (tt, node true false false, [mkFired "toggle" 7; mkFired "toggle" 7]).
Proof.
  split; [reflexivity|]. split; [reflexivity|].
  exact (keyboard_expand_collapse_round_trip Keys.isLeft Keys.isRight
           7 arrowRight arrowLeft (node true false false)
           eq_refl eq_refl eq_refl eq_refl eq_refl eq_refl eq_refl).
Defined.

Lemma left_arrow_steps_out_iff_indented_witness :
  Keys.isLeft arrowLeft = true ∧
  Keys.isRight arrowLeft = false ∧
  snd (tree_keys Keys.isLeft Keys.isRight 1 arrowLeft root) = [].
Proof.
  split; [reflexivity|]. split; [reflexivity|].
  exact (left_arrow_steps_out_iff_indented Keys.isLeft Keys.isRight
           1 arrowLeft root eq_refl eq_refl eq_refl eq_refl).
Defined.

End TreeItemMore.

(** * Properties of the accessibility getters *)

Module AccessibilityFacts.
Import I18n TreeItem Accessibility I18nFacts.

Section Facts.
Context {Rest SuperInfo Param : Type}.
Variable formatMessage : JS.MessageText → list Param → string.
Variable TREE_ITEM_ARIA_LABEL : I18nText.
Variable TREE_ITEM_EXPAND_NODE : I18nText.
Variable TREE_ITEM_COLLAPSE_NODE : I18nText.
Variable ListItem_ariaSelectedText :
  ListItem Rest → Outside → option string * Outside.
Variable ListItem_accInfo : ListItem Rest → Outside → SuperInfo * Outside.
Variable i18nBundle : I18nBundle.

Local Abbreviation _accInfo :=
  (_accInfo formatMessage TREE_ITEM_ARIA_LABEL ListItem_ariaSelectedText
     ListItem_accInfo i18nBundle).
Local Abbreviation getText := (Accessibility.getText formatMessage i18nBundle).
Local Abbreviation iconAccessibleName :=
  (iconAccessibleName (Rest:=Rest) formatMessage TREE_ITEM_EXPAND_NODE
     TREE_ITEM_COLLAPSE_NODE i18nBundle).

(** The runtime after the inherited [ariaSelectedText] ran. *)
Local Abbreviation after_selectedText t w :=
  (set_outside (snd (ListItem_ariaSelectedText (super t) (outside w))) w).

(** Whether [_accInfo] asks the bundle for a label. *)
Local Abbreviation labelled t :=
  (negb (JS.truthy (accessibleName t))
   && negb (truthy_opt (accessibleRoleDescription t))).

(** [_accInfo] as one equation. *)
Lemma _accInfo_unfold (t : TreeItemBase Rest) w :
  _accInfo t w =
    let w1 := after_selectedText t w in
    let w2 := if labelled t then snd (getText TREE_ITEM_ARIA_LABEL w1) else w1 in
    (mkAccInfo SuperInfo
       (if _minimal t then "menuitemradio" else "treeitem")
       (if showToggleButton t && negb (_minimal t) then Some (expanded t)
        else None)
       (if _minimal t then None else Some (level t))
       (_posinset t) (_setsize t)
       (fst (ListItem_ariaSelectedText (super t) (outside w)))
       (if labelled t then Some (fst (getText TREE_ITEM_ARIA_LABEL w1))
        else None)
       (if expanded t then Some (_id (super t) +:+ "-subtree") else None)
       (if truthy_opt (TreeItem.ariaHaspopup t) then TreeItem.ariaHaspopup t
        else None)
       (if _minimal t then selected (super t) else false)
       (if _minimal t then false else selected (super t))
       (fst (ListItem_accInfo (super t) (outside w2))),
     set_outside (snd (ListItem_accInfo (super t) (outside w2))) w2).
Proof.
  unfold Accessibility._accInfo, _ariaLabel.
  generalize (Accessibility.getText formatMessage i18nBundle
                TREE_ITEM_ARIA_LABEL).
  intros g. run_M. cbn zeta.
  destruct (ListItem_ariaSelectedText (super t) (outside w)) as [sel o1]. cbn.
  destruct (JS.truthy (accessibleName t)); cbn.
  - destruct (ListItem_accInfo (super t) o1) as [si o3]. cbn.
    by destruct (_minimal t).
  - destruct (truthy_opt (accessibleRoleDescription t)); cbn.
    + destruct (ListItem_accInfo (super t) o1) as [si o3]. cbn.
      by destruct (_minimal t).
    + destruct (g (set_outside o1 w)) as [label w2]. cbn.
      destruct (ListItem_accInfo (super t) (outside w2)) as [si o3]. cbn.
      by destruct (_minimal t).
Qed.

(** X15.  [aria-expanded] follows the toggle button: [_accInfo] reports
    it exactly when the button is shown, at the beginning or at the end,
    and then with the value of [expanded]. *)
Theorem ariaExpanded_iff_toggle_button_shown (t : TreeItemBase Rest) w :
  ariaExpanded (fst (_accInfo t w)) =
    if _showToggleButtonBeginning t || _showToggleButtonEnd t
    then Some (expanded t) else None.
Proof.
  rewrite _accInfo_unfold. cbn.
  unfold _showToggleButtonBeginning, _showToggleButtonEnd.
  by destruct (showToggleButton t), (_minimal t), (_toggleButtonEnd t).
Qed.

(** X16.  Selection is reported one way only: a minimal item is a
    [menuitemradio] without level and without [aria-expanded], whose
    [ariaChecked] is [selected] and whose [ariaSelected] is [false]; any
    other item is a [treeitem] with its level, whose [ariaSelected] is
    [selected] and whose [ariaChecked] is [false].  So the two are never
    both set. *)
Theorem accInfo_checked_or_selected (t : TreeItemBase Rest) w :
  let a := fst (_accInfo t w) in
  (if _minimal t
   then role a = "menuitemradio" ∧ ariaLevel a = None ∧ ariaExpanded a = None ∧
        ariaChecked a = selected (super t) ∧ ariaSelected a = false
   else role a = "treeitem" ∧ ariaLevel a = Some (level t) ∧
        ariaChecked a = false ∧ ariaSelected a = selected (super t)) ∧
  ariaChecked a && ariaSelected a = false.
Proof.
  cbn zeta. rewrite _accInfo_unfold. cbn.
  destruct (_minimal t); cbn; rewrite ?andb_false_r; by split_and!.
Qed.

(** X17.  The generated label gives way to what the application set:
    with a non-empty [accessibleName] or a non-empty
    [accessibleRoleDescription], [_accInfo] has no [listItemAriaLabel]
    and does not consult the bundle, so that it emits no missing-key
    warning of its own; otherwise the label is what [getText] returns for
    the tree item text. *)
Theorem accInfo_label (t : TreeItemBase Rest) w :
  let w1 := after_selectedText t w in
  if JS.truthy (accessibleName t) || truthy_opt (accessibleRoleDescription t)
  then listItemAriaLabel (fst (_accInfo t w)) = None ∧
       snd (_accInfo t w)
         = set_outside (snd (ListItem_accInfo (super t) (outside w1))) w1
  else listItemAriaLabel (fst (_accInfo t w))
         = Some (fst (getText TREE_ITEM_ARIA_LABEL w1)).
Proof.
  cbn zeta. rewrite _accInfo_unfold. cbn.
  by destruct (JS.truthy (accessibleName t)),
       (truthy_opt (accessibleRoleDescription t)).
Qed.

(** X18.  Computing the accessibility info acquires nothing: the
    registry, the getter slot and the record of acquisition calls are
    left as they were. *)
Theorem accInfo_acquires_nothing (t : TreeItemBase Rest) w :
  I18nBundleInstances (snd (_accInfo t w)) = I18nBundleInstances w ∧
  customGetI18nBundle (snd (_accInfo t w)) = customGetI18nBundle w ∧
  calls (snd (_accInfo t w)) = calls w.
Proof.
  rewrite _accInfo_unfold. cbn zeta. cbn [snd].
  destruct (labelled t); [|done].
  destruct (getText_frame formatMessage i18nBundle (Pair TREE_ITEM_ARIA_LABEL)
              [] (after_selectedText t w)) as [c Hc].
  unfold Accessibility.getText. rewrite Hc. done.
Qed.

(** X19.  The accessible name of the toggle icon agrees with the icon:
    it is the collapse text exactly when the icon is the down arrow. *)
Theorem iconAccessibleName_agrees_with_icon (t : TreeItemBase Rest) :
  iconAccessibleName t =
    getText (if String.eqb (_toggleIconName t) "navigation-down-arrow"
             then TREE_ITEM_COLLAPSE_NODE else TREE_ITEM_EXPAND_NODE).
Proof.
  unfold Accessibility.iconAccessibleName, _toggleIconName.
  by destruct (expanded t).
Qed.

End Facts.

(** *** Runs on concrete data *)

Import Sample SampleAcc.

(** An unnamed node: the default label, and the warning for its key,
    which the loaded data lacks. *)
Example accInfo_unnamed_node :
  let r := Accessibility._accInfo formatMessage TREE_ITEM_ARIA_LABEL
             ListItem_ariaSelectedText ListItem_accInfo ui5
             (node true true false) loaded_ui5 in
  listItemAriaLabel (fst r) = Some "Tree Item" ∧
  ariaOwns (fst r) = Some "__ui5-7-subtree" ∧
  console (outside (snd r)) = [missing_key_warning "TREE_ITEM_ARIA_LABEL"].
Proof. by split_and!. Qed.

(** A named node: no label, and a silent console. *)
Example accInfo_named_node :
  Accessibility._accInfo formatMessage TREE_ITEM_ARIA_LABEL
    ListItem_ariaSelectedText ListItem_accInfo ui5 (named "Inbox") loaded_ui5
  = (mkAccInfo unit "treeitem" (Some false) (Some 2%Z) 1 1 None None None None
       false false tt,
     loaded_ui5).
Proof. reflexivity. Qed.

End AccessibilityFacts.
